(** * DataHub REST sink: [datahub.ingestion.sink.datahub_rest]

    A shallow embedding of [DatahubRestSink] (its constructor,
    [handle_work_unit_start] and [write_record_async]) together with the
    fragment of the Python runtime the sink relies on: exceptions and
    [try]/[except] dispatch by class, dictionaries that are shared by
    reference and mutated in place, and [str.split] / [str.join].

    Exceptions come in three kinds, which is what the two [except] clauses
    of the sink tell apart: instances of [OperationalError], other
    instances of [Exception], and exceptions that derive from
    [BaseException] without deriving from [Exception] ([KeyboardInterrupt],
    [SystemExit], [GeneratorExit]), which no clause of the sink catches. *)

From stdpp Require Import base gmap strings list fin_maps.
From Stdlib Require Import String Ascii Lia.

#[local] Set Warnings "-register-all".

(** ** Python values, exceptions and the object store *)

(** Addresses of dictionary objects. *)
Abbreviation loc := positive.

(** Modelled from the spec: the class [OperationalError] (module
    [datahub.configuration.common]) is imported by the sink but is not among
    the sources; the spec gives it a [message] and an [info] mapping from
    strings to values, and the sink reads [e.message] and [e.info].

    Exception objects: an [OperationalError] carries [message] and a
    reference to its [info] dictionary; the dictionary itself lives in the
    store, so that [e.info[k] = v] is visible through every alias of it.
    Any other exception is identified by its class name and its text:
    [OtherError] is an instance of [Exception] that is not an
    [OperationalError]; [NonException] derives from [BaseException] only. *)
Inductive exn : Type :=
| OperationalError (message : string) (info : loc)
| OtherError (cls : string) (text : string)
| NonException (cls : string) (text : string).

(** The classes named by the [except] clauses of the sink. *)
Inductive exn_class : Type :=
| OperationalError_cls
| Exception_cls.

Definition isinstance (e : exn) (c : exn_class) : bool :=
  match c, e with
  | Exception_cls, OperationalError _ _ => true
  | Exception_cls, OtherError _ _ => true
  | Exception_cls, NonException _ _ => false
  | OperationalError_cls, OperationalError _ _ => true
  | OperationalError_cls, OtherError _ _ => false
  | OperationalError_cls, NonException _ _ => false
  end.

(** Values found in diagnostics.  [VRef] is a reference to a dictionary of
    the store; [VDictLit] is a dictionary display ([{...}]) built by the
    sink, which the sink never mutates afterwards. *)
Inductive value : Type :=
| VNone
| VStr (s : string)
| VInt (z : Z)
| VRef (l : loc)
| VExn (e : exn)
| VDictLit (items : list (string * value)).

Abbreviation dict := (gmap string value).
Abbreviation heap := (gmap loc dict).

(** What a collaborator (transport, callback) does when it fails: the
    exception it constructs.  An [OperationalError(message, info)] gets its
    [info] dictionary allocated in the store when it is raised. *)
Inductive throw : Type :=
| ThrowOperational (message : string) (info : dict)
| ThrowOther (cls : string) (text : string)
| ThrowNonException (cls : string) (text : string).

(** ** Strings: [str.split(sep)], slicing and [sep.join] *)

Definition newline : ascii := ascii_of_nat 10.
Definition NL : string := String newline EmptyString.

(** [s.split(sep)] for a one-character separator: always at least one
    piece, [''.split(sep) == ['']]. *)
Fixpoint split (sep : ascii) (s : string) : list string :=
  match s with
  | EmptyString => [EmptyString]
  | String c rest =>
      if Ascii.eqb c sep then EmptyString :: split sep rest
      else match split sep rest with
           | [] => [String c EmptyString]
           | piece :: pieces => String c piece :: pieces
           end
  end.

(** [sep.join(pieces)]. *)
Fixpoint join (sep : string) (pieces : list string) : string :=
  match pieces with
  | [] => EmptyString
  | [piece] => piece
  | piece :: more => piece +:+ sep +:+ join sep more
  end.

(** [pieces[0:n]]. *)
Definition slice_to {A : Type} (n : nat) (pieces : list A) : list A := take n pieces.

(** Number of occurrences of a character. *)
Fixpoint count_char (c : ascii) (s : string) : nat :=
  match s with
  | EmptyString => 0
  | String a rest => (if Ascii.eqb a c then 1 else 0) + count_char c rest
  end.

(** ** Records, envelopes and work units *)

(** Modelled from the spec: the record classes and [RecordEnvelope] are
    imported by the sink but are not among the sources.  The variants are
    those of the [Union] in the signature of [write_record_async]; the sink
    reads [entityUrn] of a [MetadataChangeProposalWrapper] and nothing else,
    so the rest of a record is an opaque payload. *)
Inductive MetadataRecord : Type :=
| MetadataChangeEvent (payload : string)
| MetadataChangeProposal (entityUrn : option string) (payload : string)
| MetadataChangeProposalWrapper (entityUrn : option string) (payload : string)
| UsageAggregation (payload : string).

Record RecordEnvelope : Type := mkEnvelope {
  record : MetadataRecord;
  metadata : list (string * value)
}.

(** Modelled from the spec: [WorkUnit] and [MetadataWorkUnit] are imported
    by the sink but are not among the sources.  A metadata work unit carries
    the flag [treat_errors_as_warnings]; a work unit of another class (here
    a usage-statistics one) carries none. *)
Inductive WorkUnit : Type :=
| MetadataWorkUnit (id : string) (wu_treat_errors_as_warnings : bool)
| UsageStatsWorkUnit (id : string).

(** ** The report *)

(** Modelled from the spec: [SinkReport] (module [datahub.ingestion.api.sink])
    is imported by the sink but is not among the sources.  The spec describes
    it as a monotonically growing aggregate with a count of written records
    and the warning and failure diagnostic entries; the warning and failure
    counts are the numbers of entries.  Its three updates cannot fail. *)
Record SinkReport : Type := mkReport {
  records_written : nat;
  warnings : list value;
  failures : list value
}.

Definition empty_report : SinkReport := mkReport 0 [] [].

Definition records_warned (r : SinkReport) : nat := List.length (warnings r).
Definition records_failed (r : SinkReport) : nat := List.length (failures r).

(** ** Collaborators *)

Inductive behaviour : Type :=
| Succeeds
| Throws (t : throw).

(** Modelled from the spec: [WriteCallback] is imported by the sink but is
    not among the sources; it exposes [on_success(envelope, metadata)] and
    [on_failure(envelope, error, info)].  A callback is caller-supplied
    code: each method either returns or raises, depending on its arguments.
    It is modelled by this outcome alone; it does not write to the sink or
    to the store. *)
Record WriteCallback : Type := mkCallback {
  on_success_does : RecordEnvelope -> value -> behaviour;
  on_failure_does : RecordEnvelope -> exn -> value -> behaviour
}.

Record DatahubRestSinkConfig : Type := mkConfig {
  server : string;
  token : option string;
  timeout_sec : option Z;
  extra_headers : option (list (string * string))
}.

(** Modelled from the spec: [DatahubRestEmitter] is imported by the sink but
    is not among the sources.  Its [test_connection] and [emit(record)]
    either return or raise; what they do is decided by the remote service. *)
Record Gms : Type := mkGms {
  test_connection_does : behaviour;
  emit_does : MetadataRecord -> behaviour
}.

Record DatahubRestEmitter : Type := mkEmitter {
  gms_server : string;
  emitter_token : option string;
  connect_timeout_sec : option Z;
  read_timeout_sec : option Z;
  emitter_extra_headers : option (list (string * string));
  gms : Gms
}.

(** ** The sink object and the world it runs in *)

Record DatahubRestSink : Type := mkSink {
  config : DatahubRestSinkConfig;
  emitter : DatahubRestEmitter;
  report : SinkReport;
  treat_errors_as_warnings : bool
}.

(** One invocation of a callback method, with its arguments. *)
Inductive CallbackEvent : Type :=
| OnSuccess (envelope : RecordEnvelope) (success_metadata : value)
| OnFailure (envelope : RecordEnvelope) (failure_exception : exn) (failure_metadata : value).

Record World : Type := mkWorld {
  self : DatahubRestSink;
  store : heap;
  calls : list CallbackEvent
}.

Definition set_report (r : SinkReport) (w : World) : World :=
  mkWorld (mkSink (config (self w)) (emitter (self w)) r (treat_errors_as_warnings (self w)))
          (store w) (calls w).

Definition set_treat_errors_as_warnings (b : bool) (w : World) : World :=
  mkWorld (mkSink (config (self w)) (emitter (self w)) (report (self w)) b)
          (store w) (calls w).

Definition set_store (h : heap) (w : World) : World :=
  mkWorld (self w) h (calls w).

Definition log_call (ev : CallbackEvent) (w : World) : World :=
  mkWorld (self w) (store w) (calls w ++ [ev]).

(** ** A state-and-exception monad for method bodies *)

Inductive outcome (A : Type) : Type :=
| Returned (a : A)
| Raised (e : exn).
Arguments Returned {A} a.
Arguments Raised {A} e.

Definition Py (A : Type) : Type := World -> outcome A * World.

Definition raise {A : Type} (e : exn) : Py A := fun w => (Raised e, w).

#[global] Instance Py_ret : MRet Py := fun A a w => (Returned a, w).

#[global] Instance Py_bind : MBind Py := fun A B k m w =>
  match m w with
  | (Returned a, w') => k a w'
  | (Raised e, w') => (Raised e, w')
  end.

Definition pass : Py unit := mret tt.

Definition get {A : Type} (f : World -> A) : Py A := fun w => (Returned (f w), w).
Definition modify (f : World -> World) : Py unit := fun w => (Returned tt, f w).

(** [try: body  except C1 as e: h1  except C2 as e: h2 ...]: the first
    clause whose class the exception is an instance of handles it; with no
    matching clause the exception propagates. *)
Fixpoint dispatch {A : Type} (clauses : list (exn_class * (exn -> Py A))) (e : exn) : Py A :=
  match clauses with
  | [] => raise e
  | (c, h) :: more => if isinstance e c then h e else dispatch more e
  end.

Definition try_except {A : Type} (body : Py A) (clauses : list (exn_class * (exn -> Py A))) : Py A :=
  fun w => match body w with
           | (Returned a, w') => (Returned a, w')
           | (Raised e, w') => dispatch clauses e w'
           end.

(** ** Store operations *)

(** The dictionary a reference points to. *)
Definition deref (h : heap) (l : loc) : dict := default ∅ (h !! l).

Definition alloc (d : dict) : Py loc :=
  fun w => let l := fresh (dom (store w)) in
           (Returned l, set_store (<[l := d]> (store w)) w).

(** [k in d] *)
Definition dict_contains (l : loc) (k : string) : Py bool :=
  get (fun w => bool_decide (is_Some (deref (store w) l !! k))).

(** [d[k]] *)
Definition dict_getitem (l : loc) (k : string) : Py value :=
  fun w => match deref (store w) l !! k with
           | Some v => (Returned v, w)
           | None => (Raised (OtherError "KeyError" k), w)
           end.

(** [d[k] = v] *)
Definition dict_setitem (l : loc) (k : string) (v : value) : Py unit :=
  modify (fun w => set_store (<[l := <[k := v]> (deref (store w) l)]> (store w)) w).

(** [raise] of a freshly constructed exception. *)
Definition construct_and_raise {A : Type} (t : throw) : Py A :=
  match t with
  | ThrowOperational message info => l ← alloc info; raise (OperationalError message l)
  | ThrowOther cls text => raise (OtherError cls text)
  | ThrowNonException cls text => raise (NonException cls text)
  end.

Definition perform (b : behaviour) : Py unit :=
  match b with
  | Succeeds => mret tt
  | Throws t => construct_and_raise t
  end.

(** Attribute access on an exception object. *)
Definition getattr_message (e : exn) : Py string :=
  match e with
  | OperationalError message _ => mret message
  | _ => raise (OtherError "AttributeError" "message")
  end.

Definition getattr_info (e : exn) : Py loc :=
  match e with
  | OperationalError _ info => mret info
  | _ => raise (OtherError "AttributeError" "info")
  end.

(** [v.split(sep)]: only [str] has the method with this signature. *)
Definition method_split (v : value) (sep : ascii) : Py (list string) :=
  match v with
  | VStr s => mret (split sep s)
  | _ => raise (OtherError "AttributeError" "split")
  end.

(** ** Report updates (modelled from the spec, see [SinkReport]) *)

Definition report_record_written (record_envelope : RecordEnvelope) : Py unit :=
  modify (fun w => let r := report (self w) in
                   set_report (mkReport (S (records_written r)) (warnings r) (failures r)) w).

Definition report_warning (info : value) : Py unit :=
  modify (fun w => let r := report (self w) in
                   set_report (mkReport (records_written r) (warnings r ++ [info]) (failures r)) w).

Definition report_failure (info : value) : Py unit :=
  modify (fun w => let r := report (self w) in
                   set_report (mkReport (records_written r) (warnings r) (failures r ++ [info])) w).

(** ** Calls to collaborators *)

Definition emitter_emit (record : MetadataRecord) : Py unit :=
  fun w => perform (emit_does (gms (emitter (self w))) record) w.

Definition call_on_success (cb : WriteCallback) (env : RecordEnvelope) (md : value) : Py unit :=
  modify (log_call (OnSuccess env md)) ;;
  perform (on_success_does cb env md).

Definition call_on_failure (cb : WriteCallback) (env : RecordEnvelope) (e : exn) (md : value) : Py unit :=
  modify (log_call (OnFailure env e md)) ;;
  perform (on_failure_does cb env e md).

(** ** [DatahubRestSink] *)

(** [__init__]: the fields are set, the emitter is built from the
    configuration with [timeout_sec] used for both timeouts, and
    [test_connection] is called; the class-level default leaves
    [treat_errors_as_warnings] at [False].  The pipeline context handed to
    the base class is not read by the sink and is left out.  The result is
    the world holding the new sink, or the exception [test_connection]
    raised. *)
Definition init (config : DatahubRestSinkConfig) (remote : Gms) : outcome unit * World :=
  let emitter :=
    mkEmitter (server config) (token config) (timeout_sec config) (timeout_sec config)
              (extra_headers config) remote in
  let w := mkWorld (mkSink config emitter empty_report false) ∅ [] in
  perform (test_connection_does (gms emitter)) w.

Definition handle_work_unit_start (workunit : WorkUnit) : Py unit :=
  match workunit with
  | MetadataWorkUnit _ flag => modify (set_treat_errors_as_warnings flag)
  | UsageStatsWorkUnit _ => pass
  end.

Definition handle_work_unit_end (workunit : WorkUnit) : Py unit := pass.

(** [entityUrn] as a Python value. *)
Definition urn_value (entityUrn : option string) : value :=
  match entityUrn with
  | Some urn => VStr urn
  | None => VNone
  end.

(** The assignment guarded by the inner [try]:
    [e.info["stackTrace"] = "\n".join(e.info["stackTrace"].split("\n")[0:2])]. *)
Definition trim_stack_trace (e : exn) : Py unit :=
  info ← getattr_info e;
  trace ← dict_getitem info "stackTrace";
  lines ← method_split trace newline;
  info ← getattr_info e;
  dict_setitem info "stackTrace" (VStr (join NL (slice_to 2 lines))).

(** The clause [except OperationalError as e] of [write_record_async]. *)
Definition except_OperationalError
    (record_envelope : RecordEnvelope) (write_callback : WriteCallback) (e : exn) : Py unit :=
  flag ← get (fun w => treat_errors_as_warnings (self w));
  (if negb (flag : bool) then
     message ← getattr_message e;
     info ← getattr_info e;
     report_failure (VDictLit [("error", VStr message); ("info", VRef info)])
   else
     info ← getattr_info e;
     has_trace ← dict_contains info "stackTrace";
     (if (has_trace : bool) then
        try_except (trim_stack_trace e) [(Exception_cls, fun _ => pass)]
      else pass);;
     match record record_envelope with
     | MetadataChangeProposalWrapper entityUrn _ =>
         info ← getattr_info e;
         dict_setitem info "id" (urn_value entityUrn)
     | _ => pass
     end;;
     message ← getattr_message e;
     info ← getattr_info e;
     report_warning (VDictLit [("warning", VStr message); ("info", VRef info)]));;
  info ← getattr_info e;
  call_on_failure write_callback record_envelope e (VRef info).

(** The clause [except Exception as e] of [write_record_async]. *)
Definition except_Exception
    (record_envelope : RecordEnvelope) (write_callback : WriteCallback) (e : exn) : Py unit :=
  report_failure (VDictLit [("e", VExn e)]);;
  call_on_failure write_callback record_envelope e (VDictLit []).

(** The body of the [try] statement of [write_record_async]. *)
Definition try_body (record_envelope : RecordEnvelope) (write_callback : WriteCallback) : Py unit :=
  emitter_emit (record record_envelope);;
  report_record_written record_envelope;;
  call_on_success write_callback record_envelope (VDictLit []).

Definition write_record_async
    (record_envelope : RecordEnvelope) (write_callback : WriteCallback) : Py unit :=
  try_except
    (try_body record_envelope write_callback)
    [(OperationalError_cls, except_OperationalError record_envelope write_callback);
     (Exception_cls, except_Exception record_envelope write_callback)].

(** The two [except] clauses applied to an exception raised in the [try]
    body. *)
Definition handle
    (record_envelope : RecordEnvelope) (write_callback : WriteCallback) : exn -> Py unit :=
  dispatch
    [(OperationalError_cls, except_OperationalError record_envelope write_callback);
     (Exception_cls, except_Exception record_envelope write_callback)].

Definition get_report : Py SinkReport := get (fun w => report (self w)).

Definition close : Py unit := pass.

(** ** Driving a sink *)

(** The calls a pipeline makes on a sink. *)
Inductive SinkCall : Type :=
| Call_handle_work_unit_start (workunit : WorkUnit)
| Call_handle_work_unit_end (workunit : WorkUnit)
| Call_write_record_async (record_envelope : RecordEnvelope) (write_callback : WriteCallback).

Definition run_call (c : SinkCall) : Py unit :=
  match c with
  | Call_handle_work_unit_start wu => handle_work_unit_start wu
  | Call_handle_work_unit_end wu => handle_work_unit_end wu
  | Call_write_record_async env cb => write_record_async env cb
  end.

(** The world after a sequence of calls. *)
Definition drive (cs : list SinkCall) (w : World) : World :=
  foldl (fun (w : World) (c : SinkCall) => snd (run_call c w)) w cs.

Definition is_write (c : SinkCall) : bool :=
  match c with
  | Call_write_record_async _ _ => true
  | _ => false
  end.

(** Records submitted by a sequence of calls. *)
Definition submitted (cs : list SinkCall) : nat := List.length (filter (fun c => is_write c = true) cs).

(** Whether what a collaborator throws is an instance of [Exception]. *)
Definition caught (t : throw) : bool :=
  match t with
  | ThrowNonException _ _ => false
  | _ => true
  end.

(** The number of entries (written, warning or failure) that a call adds
    to the report, read off what the transport and the callback do with
    its record: none when the emission raises a non-[Exception], two when
    the emission succeeds and [on_success] raises an instance of
    [Exception], and one otherwise. *)
Definition entries_added (remote : Gms) (c : SinkCall) : nat :=
  match c with
  | Call_write_record_async env cb =>
      match emit_does remote (record env) with
      | Throws (ThrowNonException _ _) => 0
      | Throws _ => 1
      | Succeeds =>
          match on_success_does cb env (VDictLit []) with
          | Succeeds => 1
          | Throws (ThrowNonException _ _) => 1
          | Throws _ => 2
          end
      end
  | _ => 0
  end.

(** A call whose emission does not raise a non-[Exception] and whose
    [on_success], if the emission succeeds, does not raise an instance of
    [Exception]. *)
Definition one_entry (remote : Gms) (c : SinkCall) : Prop :=
  match c with
  | Call_write_record_async env cb =>
      match emit_does remote (record env) with
      | Throws (ThrowNonException _ _) => False
      | Throws _ => True
      | Succeeds =>
          match on_success_does cb env (VDictLit []) with
          | Succeeds => True
          | Throws (ThrowNonException _ _) => True
          | Throws _ => False
          end
      end
  | _ => True
  end.

(** What a caller sees of an exception raised for [t]. *)
Definition raises (t : throw) (x : exn) : Prop :=
  match t with
  | ThrowOperational message _ => exists l, x = OperationalError message l
  | ThrowOther cls text => x = OtherError cls text
  | ThrowNonException cls text => x = NonException cls text
  end.

(** A call other than the start of a metadata work unit. *)
Definition no_metadata_start (c : SinkCall) : Prop :=
  match c with
  | Call_handle_work_unit_start (MetadataWorkUnit _ _) => False
  | _ => True
  end.

(** Callback invocations made between two worlds. *)
Definition calls_during (w w' : World) : list CallbackEvent :=
  drop (List.length (calls w)) (calls w').

(** Entries accounted for in a report. *)
Definition accounted (r : SinkReport) : nat :=
  records_written r + records_warned r + records_failed r.

(** ** The redaction as a function on dictionaries

    What the warning branch of [except OperationalError] leaves in the
    [info] dictionary, written as a function of its contents before the
    branch; [except_OperationalError_warning] proves that the statements
    of the branch have exactly this effect on the store. *)

Definition trim_trace (v : value) : value :=
  match v with
  | VStr s => VStr (join NL (slice_to 2 (split newline s)))
  | _ => v
  end.

Definition redact (r : MetadataRecord) (d : dict) : dict :=
  let trimmed :=
    match d !! "stackTrace" with
    | Some trace => <["stackTrace" := trim_trace trace]> d
    | None => d
    end in
  match r with
  | MetadataChangeProposalWrapper entityUrn _ => <["id" := urn_value entityUrn]> trimmed
  | _ => trimmed
  end.

(** The diagnostic entries built by the two operational branches and by
    the unexpected branch. *)
Definition failure_entry (message : string) (info : loc) : value :=
  VDictLit [("error", VStr message); ("info", VRef info)].

Definition warning_entry (message : string) (info : loc) : value :=
  VDictLit [("warning", VStr message); ("info", VRef info)].

Definition unexpected_entry (e : exn) : value :=
  VDictLit [("e", VExn e)].

(** The world in which [on_success] is invoked. *)
Definition written_world (env : RecordEnvelope) (w : World) : World :=
  log_call (OnSuccess env (VDictLit []))
    (set_report (mkReport (S (records_written (report (self w))))
                          (warnings (report (self w))) (failures (report (self w)))) w).

(** The world in which a handler starts when a collaborator raised [t] in
    world [w], and the exception object it handles. *)
Definition raised_in (t : throw) (w : World) : World := snd (@construct_and_raise unit t w).

Definition raised_exn (t : throw) (w : World) : exn :=
  match t with
  | ThrowOperational message _ => OperationalError message (fresh (dom (store w)))
  | ThrowOther cls text => OtherError cls text
  | ThrowNonException cls text => NonException cls text
  end.

(** ** Sample inputs *)

Definition quiet_callback : WriteCallback :=
  mkCallback (fun _ _ => Succeeds) (fun _ _ _ => Succeeds).

Definition sample_config : DatahubRestSinkConfig :=
  mkConfig "http://localhost:8080" None None None.

Definition sample_trace : string := "a" +:+ NL +:+ "b" +:+ NL +:+ "c" +:+ NL +:+ "d".

Definition sample_urn : string := "urn:li:dataset:1".

Definition rejecting_gms : Gms :=
  mkGms Succeeds (fun _ => Throws (ThrowOperational "rejected" {[ "stackTrace" := VStr sample_trace ]})).

Definition wrapper_envelope : RecordEnvelope :=
  mkEnvelope (MetadataChangeProposalWrapper (Some sample_urn) "aspect") [].

Definition accepting_gms : Gms := mkGms Succeeds (fun _ => Succeeds).

Definition faulty_gms : Gms :=
  mkGms Succeeds (fun _ => Throws (ThrowOther "RuntimeError" "connection reset")).

(** A transport whose error carries a [stackTrace] that is not a string. *)
Definition malformed_gms : Gms :=
  mkGms Succeeds (fun _ => Throws (ThrowOperational "rejected" {[ "stackTrace" := VInt 7 ]})).

(** One record accepted, one rejected, one hitting a plain runtime fault. *)
Definition scenario_gms : Gms :=
  mkGms Succeeds
    (fun r => match r with
              | MetadataChangeEvent _ => Succeeds
              | MetadataChangeProposal _ _
              | MetadataChangeProposalWrapper _ _ =>
                  Throws (ThrowOperational "rejected" {[ "stackTrace" := VStr sample_trace ]})
              | UsageAggregation _ => Throws (ThrowOther "RuntimeError" "fault")
              end).

Definition event_envelope : RecordEnvelope := mkEnvelope (MetadataChangeEvent "snapshot") [].

Definition usage_envelope : RecordEnvelope := mkEnvelope (UsageAggregation "bucket") [].

(** A callback whose [on_success] raises. *)
Definition success_raising_callback : WriteCallback :=
  mkCallback (fun _ _ => Throws (ThrowOther "ValueError" "in on_success")) (fun _ _ _ => Succeeds).

(** A callback whose [on_failure] raises. *)
Definition failure_raising_callback : WriteCallback :=
  mkCallback (fun _ _ => Succeeds) (fun _ _ _ => Throws (ThrowOther "RuntimeError" "in on_failure")).

(** A transport whose exception is not an [OperationalError] although its
    class name and text say so. *)
Definition lookalike_gms : Gms :=
  mkGms Succeeds
    (fun _ => Throws (ThrowOther "sqlalchemy.exc.OperationalError"
                                 "OperationalError: rejected")).

(** A transport interrupted from the keyboard while it emits. *)
Definition interrupted_gms : Gms :=
  mkGms Succeeds (fun _ => Throws (ThrowNonException "KeyboardInterrupt" "")).

(** A callback whose [on_success] exits the interpreter. *)
Definition exiting_callback : WriteCallback :=
  mkCallback (fun _ _ => Throws (ThrowNonException "SystemExit" "1")) (fun _ _ _ => Succeeds).

Definition started (remote : Gms) (flag : bool) : World :=
  snd (handle_work_unit_start (MetadataWorkUnit "wu-1" flag) (snd (init sample_config remote))).

(** The three records of the scenario, submitted in one work unit. *)
Definition scenario_calls : list SinkCall :=
  [Call_write_record_async event_envelope quiet_callback;
   Call_write_record_async wrapper_envelope quiet_callback;
   Call_write_record_async usage_envelope quiet_callback].

(** Calls made on a new sink before any metadata work unit starts. *)
Definition early_calls : list SinkCall :=
  [Call_handle_work_unit_start (UsageStatsWorkUnit "usage-1");
   Call_write_record_async wrapper_envelope quiet_callback;
   Call_handle_work_unit_end (UsageStatsWorkUnit "usage-1")].

(** ** Observations on sequences of calls *)

(** The flag a sequence of calls leaves latched, when it starts at [flag]:
    that of the last metadata work unit started. *)
Fixpoint latched (cs : list SinkCall) (flag : bool) : bool :=
  match cs with
  | [] => flag
  | Call_handle_work_unit_start (MetadataWorkUnit _ b) :: rest => latched rest b
  | _ :: rest => latched rest flag
  end.

(** Calls whose body is not just [pass]: the writes and the starts of
    metadata work units. *)
Definition is_effective (c : SinkCall) : bool :=
  match c with
  | Call_write_record_async _ _ => true
  | Call_handle_work_unit_start (MetadataWorkUnit _ _) => true
  | _ => false
  end.

(** The same record submitted in two work units, the first without the
    policy flag and the second with it. *)
Definition two_work_units
    (id1 id2 : string) (env : RecordEnvelope) (cb : WriteCallback) : list SinkCall :=
  [Call_handle_work_unit_start (MetadataWorkUnit id1 false);
   Call_write_record_async env cb;
   Call_handle_work_unit_start (MetadataWorkUnit id2 true);
   Call_write_record_async env cb].

(** Invocations of [on_success] and of [on_failure] in a callback log. *)
Definition is_on_success (ev : CallbackEvent) : bool :=
  match ev with
  | OnSuccess _ _ => true
  | OnFailure _ _ _ => false
  end.

Definition on_successes (evs : list CallbackEvent) : nat :=
  List.length (filter (fun ev => is_on_success ev = true) evs).

Definition on_failures (evs : list CallbackEvent) : nat :=
  List.length (filter (fun ev => is_on_success ev = false) evs).

(** The trimming expression of the sink on a string. *)
Definition trimmed (s : string) : string := join NL (slice_to 2 (split newline s)).

(** A transport that cannot be reached. *)
Definition unreachable_gms : Gms :=
  mkGms (Throws (ThrowOther "ConnectionError" "connection refused")) (fun _ => Succeeds).

(** A callback whose [on_success] raises an [OperationalError]. *)
Definition operational_raising_callback : WriteCallback :=
  mkCallback (fun _ _ => Throws (ThrowOperational "late" {[ "stackTrace" := VStr sample_trace ]}))
             (fun _ _ _ => Succeeds).

(** * Strings: facts about [split] and [join] *)

Section SplitJoin.

Variable sep : ascii.

Lemma append_nil_l (b : string) : EmptyString +:+ b = b.
Proof. reflexivity. Qed.

Lemma append_cons (c : ascii) (a b : string) : String c a +:+ b = String c (a +:+ b).
Proof. reflexivity. Qed.

Lemma append_assoc (a b c : string) : (a +:+ b) +:+ c = a +:+ (b +:+ c).
Proof.
  induction a as [|x a IH]; [reflexivity|].
  rewrite !append_cons. f_equal. exact IH.
Qed.

Lemma append_empty_r (a : string) : a +:+ EmptyString = a.
Proof.
  induction a as [|x a IH]; [reflexivity|].
  rewrite append_cons. f_equal. exact IH.
Qed.

Lemma split_not_nil (s : string) : split sep s <> [].
Proof.
  destruct s as [|c rest]; simpl; [discriminate|].
  destruct (Ascii.eqb c sep); [discriminate|].
  destruct (split sep rest); discriminate.
Qed.

Lemma join_cons (glue piece : string) (more : list string) :
  more <> [] -> join glue (piece :: more) = piece +:+ glue +:+ join glue more.
Proof. destruct more; [congruence | reflexivity]. Qed.

(** Joining the pieces back gives the string that was split. *)
Lemma join_split (s : string) : join (String sep EmptyString) (split sep s) = s.
Proof.
  induction s as [|c rest IH]; [reflexivity|].
  pose proof (split_not_nil rest) as Hne.
  cbn [split]. destruct (Ascii.eqb c sep) eqn:E.
  - apply Ascii.eqb_eq in E; subst c.
    rewrite join_cons by assumption.
    rewrite append_nil_l, append_cons, append_nil_l. now rewrite IH.
  - destruct (split sep rest) as [|piece pieces]; [congruence|].
    rewrite <- IH.
    destruct pieces as [|p ps]; [reflexivity|].
    rewrite !join_cons by discriminate. now rewrite append_cons.
Qed.

(** A slice of the pieces joins to a prefix of the whole. *)
Lemma join_take_prefix (glue : string) (n : nat) (pieces : list string) :
  exists rest, join glue pieces = join glue (take n pieces) +:+ rest.
Proof.
  revert n; induction pieces as [|p more IH]; intros n.
  - exists EmptyString. now destruct n.
  - destruct n as [|n]; [now exists (join glue (p :: more))|].
    destruct more as [|q more'].
    + exists EmptyString. cbn [take]. rewrite take_nil. now rewrite append_empty_r.
    + destruct n as [|n].
      * exists (glue +:+ join glue (q :: more')). reflexivity.
      * destruct (IH (S n)) as [rest Hrest].
        exists rest.
        change (take (S (S n)) (p :: q :: more')) with (p :: take (S n) (q :: more')).
        rewrite (join_cons glue p (q :: more')) by discriminate.
        rewrite (join_cons glue p (take (S n) (q :: more'))) by (simpl; discriminate).
        rewrite Hrest. now rewrite !append_assoc.
Qed.

Lemma count_char_app (a b : string) :
  count_char sep (a +:+ b) = count_char sep a + count_char sep b.
Proof.
  induction a as [|x a IH]; [reflexivity|].
  rewrite append_cons. cbn [count_char]. rewrite IH. lia.
Qed.

(** No piece of a split contains the separator. *)
Lemma split_pieces_free (s : string) :
  Forall (fun piece => count_char sep piece = 0) (split sep s).
Proof.
  induction s as [|c rest IH]; cbn [split].
  - by constructor.
  - destruct (Ascii.eqb c sep) eqn:E.
    + by constructor.
    + destruct (split sep rest) as [|piece pieces].
      * constructor; [cbn [count_char]; by rewrite E | constructor].
      * inversion IH; subst. constructor; [cbn [count_char]; rewrite E; lia | done].
Qed.

Lemma count_char_join (pieces : list string) :
  Forall (fun piece => count_char sep piece = 0) pieces ->
  count_char sep (join (String sep EmptyString) pieces) = pred (List.length pieces).
Proof.
  induction 1 as [|p more Hp Hmore IH]; [reflexivity|].
  destruct more as [|q more']; [cbn [join List.length]; lia|].
  rewrite join_cons by discriminate.
  rewrite !count_char_app, IH, Hp. cbn [count_char List.length].
  rewrite Ascii.eqb_refl. lia.
Qed.

Lemma split_free (s : string) : count_char sep s = 0 -> split sep s = [s].
Proof.
  induction s as [|c rest IH]; cbn [split count_char]; [reflexivity|].
  destruct (Ascii.eqb c sep); [discriminate|].
  intros H. now rewrite IH.
Qed.

Lemma split_app_sep (a b : string) :
  count_char sep a = 0 -> split sep (a +:+ String sep b) = a :: split sep b.
Proof.
  induction a as [|c a IH].
  - intros _. rewrite append_nil_l. cbn [split]. now rewrite Ascii.eqb_refl.
  - rewrite append_cons. cbn [split count_char].
    destruct (Ascii.eqb c sep); [discriminate|].
    intros H. now rewrite IH.
Qed.

(** Splitting a join of separator-free pieces gives the pieces back. *)
Lemma split_join (pieces : list string) :
  pieces <> [] ->
  Forall (fun piece => count_char sep piece = 0) pieces ->
  split sep (join (String sep EmptyString) pieces) = pieces.
Proof.
  intros Hne Hfree. induction Hfree as [|p more Hp Hmore IH]; [congruence|].
  destruct more as [|q more'].
  - cbn [join]. now apply split_free.
  - rewrite join_cons by discriminate.
    rewrite append_cons, append_nil_l.
    rewrite split_app_sep by assumption.
    now rewrite IH.
Qed.

End SplitJoin.

(** The trimming expression of the sink,
    ["\n".join(trace.split("\n")[0:2])], keeps the first two lines. *)
Lemma trimmed_lines (s : string) :
  split newline (join NL (slice_to 2 (split newline s))) = take 2 (split newline s).
Proof.
  unfold slice_to, NL. apply split_join.
  - pose proof (split_not_nil newline s). destruct (split newline s); [congruence | discriminate].
  - apply Forall_take, split_pieces_free.
Qed.

Lemma trimmed_prefix (s : string) :
  exists rest, s = join NL (slice_to 2 (split newline s)) +:+ rest.
Proof.
  destruct (join_take_prefix NL 2 (split newline s)) as [rest H].
  exists rest. unfold NL in *. now rewrite join_split in H.
Qed.

Lemma trimmed_newlines (s : string) :
  count_char newline (join NL (slice_to 2 (split newline s))) <= 1.
Proof.
  unfold slice_to, NL.
  rewrite count_char_join by apply Forall_take, split_pieces_free.
  rewrite length_take. lia.
Qed.

Lemma length_split (sep : ascii) (s : string) :
  List.length (split sep s) = S (count_char sep s).
Proof.
  induction s as [|c rest IH]; [reflexivity|].
  cbn [split count_char]. pose proof (split_not_nil sep rest) as Hne.
  destruct (Ascii.eqb c sep).
  - cbn [List.length]. rewrite IH. lia.
  - destruct (split sep rest) as [|piece pieces]; [congruence|].
    cbn [List.length] in *. lia.
Qed.

Lemma trimmed_fixed (s : string) : trimmed s = s <-> count_char newline s <= 1.
Proof.
  unfold trimmed. split.
  - intros H. rewrite <- H. apply trimmed_newlines.
  - intros H. unfold slice_to.
    rewrite take_ge by (rewrite length_split; lia).
    apply (join_split newline).
Qed.

Lemma trimmed_idempotent (s : string) : trimmed (trimmed s) = trimmed s.
Proof. apply trimmed_fixed, trimmed_newlines. Qed.

Lemma trimmed_long (s : string) :
  2 <= count_char newline s ->
  count_char newline (trimmed s) = 1 /\ exists rest, s = trimmed s +:+ NL +:+ rest.
Proof.
  intros Hlong. unfold trimmed, slice_to.
  pose proof (length_split newline s) as Hlen.
  pose proof (join_split newline s) as Hjoin.
  pose proof (split_pieces_free newline s) as Hfree.
  destruct (split newline s) as [|p [|q [|x more]]]; cbn [List.length] in Hlen; try lia.
  split.
  - cbn [take]. rewrite (join_cons NL p [q]) by discriminate. cbn [join].
    inversion Hfree as [|? ? Hp Hrest]; subst. inversion Hrest as [|? ? Hq _]; subst.
    rewrite !count_char_app, Hp, Hq. reflexivity.
  - exists (join NL (x :: more)).
    rewrite <- Hjoin. cbn [take].
    change (String newline EmptyString) with NL.
    rewrite (join_cons NL p (q :: x :: more)) by discriminate.
    rewrite (join_cons NL q (x :: more)) by discriminate.
    rewrite (join_cons NL p [q]) by discriminate.
    cbn [join]. now rewrite !append_assoc.
Qed.

Example trim_sample : join NL (slice_to 2 (split newline sample_trace)) = "a" +:+ NL +:+ "b".
Proof. reflexivity. Qed.

(** * The monad and the store *)

Ltac py_unfold :=
  unfold mbind, mret, Py_bind, Py_ret, get, modify, pass, raise in *.

Lemma deref_lookup (h : heap) (l : loc) (d : dict) : h !! l = Some d -> deref h l = d.
Proof. unfold deref. now intros ->. Qed.

Lemma deref_insert (h : heap) (l : loc) (d : dict) : deref (<[l := d]> h) l = d.
Proof. apply deref_lookup, lookup_insert_eq. Qed.

Lemma construct_and_raise_eq {A : Type} (t : throw) (w : World) :
  @construct_and_raise A t w = (Raised (raised_exn t w), raised_in t w).
Proof. destruct t; reflexivity. Qed.

Lemma raised_in_self (t : throw) (w : World) : self (raised_in t w) = self w.
Proof. destruct t; reflexivity. Qed.

Lemma raised_in_calls (t : throw) (w : World) : calls (raised_in t w) = calls w.
Proof. destruct t; reflexivity. Qed.

Lemma raised_in_operational (message : string) (d : dict) (w : World) :
  store (raised_in (ThrowOperational message d) w)
  = <[fresh (dom (store w)) := d]> (store w).
Proof. reflexivity. Qed.

Lemma raised_in_other (cls text : string) (w : World) :
  raised_in (ThrowOther cls text) w = w.
Proof. reflexivity. Qed.

(** Allocation does not disturb the dictionaries already in the store. *)
Lemma alloc_fresh (h : heap) : h !! fresh (dom h) = None.
Proof. apply not_elem_of_dom, is_fresh. Qed.

Lemma perform_eq (b : behaviour) (w : World) :
  perform b w =
  match b with
  | Succeeds => (Returned tt, w)
  | Throws t => (Raised (raised_exn t w), raised_in t w)
  end.
Proof. destruct b as [|t]; [reflexivity | apply construct_and_raise_eq]. Qed.

(** * The [try] body *)

Lemma try_body_emit_raises (env : RecordEnvelope) (cb : WriteCallback) (w : World) (t : throw) :
  emit_does (gms (emitter (self w))) (record env) = Throws t ->
  try_body env cb w = (Raised (raised_exn t w), raised_in t w).
Proof.
  intros H. unfold try_body, emitter_emit. py_unfold.
  rewrite H. cbn [perform]. now rewrite construct_and_raise_eq.
Qed.

Lemma try_body_emit_succeeds (env : RecordEnvelope) (cb : WriteCallback) (w : World) :
  emit_does (gms (emitter (self w))) (record env) = Succeeds ->
  try_body env cb w = perform (on_success_does cb env (VDictLit [])) (written_world env w).
Proof.
  intros H. unfold try_body, emitter_emit, report_record_written, call_on_success.
  py_unfold. rewrite H. reflexivity.
Qed.

(** * The handlers *)

Lemma except_OperationalError_failure
    (env : RecordEnvelope) (cb : WriteCallback) (msg : string) (l : loc) (w : World) :
  treat_errors_as_warnings (self w) = false ->
  except_OperationalError env cb (OperationalError msg l) w =
  perform (on_failure_does cb env (OperationalError msg l) (VRef l))
    (log_call (OnFailure env (OperationalError msg l) (VRef l))
       (set_report (mkReport (records_written (report (self w)))
                             (warnings (report (self w)))
                             (failures (report (self w)) ++ [failure_entry msg l])) w)).
Proof.
  intros Hflag. unfold except_OperationalError, report_failure, call_on_failure.
  py_unfold. rewrite Hflag. reflexivity.
Qed.

Lemma except_OperationalError_warning
    (env : RecordEnvelope) (cb : WriteCallback) (msg : string) (l : loc) (d : dict) (w : World) :
  treat_errors_as_warnings (self w) = true ->
  store w !! l = Some d ->
  except_OperationalError env cb (OperationalError msg l) w =
  perform (on_failure_does cb env (OperationalError msg l) (VRef l))
    (log_call (OnFailure env (OperationalError msg l) (VRef l))
       (set_report (mkReport (records_written (report (self w)))
                             (warnings (report (self w)) ++ [warning_entry msg l])
                             (failures (report (self w))))
          (set_store (<[l := redact (record env) d]> (store w)) w))).
Proof.
  intros Hflag Hl. unfold except_OperationalError, report_warning, call_on_failure.
  unfold trim_stack_trace, dict_contains, dict_getitem, dict_setitem, try_except.
  py_unfold. rewrite Hflag. cbn [negb getattr_info getattr_message].
  py_unfold. cbn [store set_store]. rewrite (deref_lookup _ _ _ Hl).
  unfold redact, warning_entry.
  destruct (d !! "stackTrace") as [trace|] eqn:Ht.
  - rewrite bool_decide_eq_true_2 by eauto.
    rewrite (deref_lookup _ _ _ Hl), Ht.
    destruct trace; cbn [method_split dispatch isinstance trim_trace]; py_unfold;
      destruct (record env); unfold set_report, set_store, log_call;
      cbn [self store calls config emitter report treat_errors_as_warnings
           records_written warnings failures];
      rewrite ?deref_insert, ?(deref_lookup _ _ _ Hl), ?insert_insert_eq,
              ?(insert_id d _ _ Ht), ?(insert_id (store w) l d Hl);
      try reflexivity.
  - rewrite bool_decide_eq_false_2 by (intros [? ?]; discriminate).
    destruct (record env); unfold set_report, set_store, log_call;
      cbn [self store calls config emitter report treat_errors_as_warnings
           records_written warnings failures];
      rewrite ?deref_insert, ?(deref_lookup _ _ _ Hl), ?insert_insert_eq,
              ?(insert_id (store w) l d Hl);
      reflexivity.
Qed.

Lemma except_Exception_eq
    (env : RecordEnvelope) (cb : WriteCallback) (e : exn) (w : World) :
  except_Exception env cb e w =
  perform (on_failure_does cb env e (VDictLit []))
    (log_call (OnFailure env e (VDictLit []))
       (set_report (mkReport (records_written (report (self w)))
                             (warnings (report (self w)))
                             (failures (report (self w)) ++ [unexpected_entry e])) w)).
Proof. reflexivity. Qed.

(** The inner [try: ... except Exception: pass] swallows every instance of
    [Exception] and lets the other exceptions through. *)
Lemma swallow_all (body : Py unit) (w : World) :
  try_except body [(Exception_cls, fun _ => pass)] w =
  match body w with
  | (Raised (NonException cls text), w') => (Raised (NonException cls text), w')
  | (_, w') => (Returned tt, w')
  end.
Proof.
  unfold try_except. destruct (body w) as [[[]|[msg l|cls text|cls text]] w']; reflexivity.
Qed.

(** * [write_record_async], path by path *)

(** An exception raised in the [try] body goes to the first clause it is
    an instance of. *)
Lemma write_record_async_raised
    (env : RecordEnvelope) (cb : WriteCallback) (w w1 : World) (e : exn) :
  try_body env cb w = (Raised e, w1) ->
  write_record_async env cb w =
  handle env cb e w1.
Proof.
  intros H. unfold write_record_async, try_except. rewrite H. reflexivity.
Qed.

Lemma write_record_async_returned
    (env : RecordEnvelope) (cb : WriteCallback) (w w1 : World) :
  try_body env cb w = (Returned tt, w1) ->
  write_record_async env cb w = (Returned tt, w1).
Proof. intros H. unfold write_record_async, try_except. now rewrite H. Qed.

(** What the [except] clauses do with the exception constructed from [t]
    in world [w]: the report entry, the redaction, the callback. *)
Lemma handle_raised
    (env : RecordEnvelope) (cb : WriteCallback) (t : throw) (w : World) :
  handle env cb (raised_exn t w) (raised_in t w) =
  let r := report (self w) in
  match t with
  | ThrowOperational msg d =>
      let l := fresh (dom (store w)) in
      let e := OperationalError msg l in
      perform (on_failure_does cb env e (VRef l))
        (log_call (OnFailure env e (VRef l))
           (if treat_errors_as_warnings (self w) then
              set_report (mkReport (records_written r) (warnings r ++ [warning_entry msg l]) (failures r))
                (set_store (<[l := redact (record env) d]> (store w)) w)
            else
              set_report (mkReport (records_written r) (warnings r) (failures r ++ [failure_entry msg l]))
                (set_store (<[l := d]> (store w)) w)))
  | ThrowOther cls text =>
      let e := OtherError cls text in
      perform (on_failure_does cb env e (VDictLit []))
        (log_call (OnFailure env e (VDictLit []))
           (set_report (mkReport (records_written r) (warnings r) (failures r ++ [unexpected_entry e])) w))
  | ThrowNonException cls text => (Raised (NonException cls text), w)
  end.
Proof.
  unfold handle.
  destruct t as [msg d|cls text|cls text]; cbn [raised_exn isinstance dispatch];
    [|reflexivity|reflexivity].
  cbn zeta.
  destruct (treat_errors_as_warnings (self w)) eqn:Hflag.
  - rewrite (except_OperationalError_warning env cb msg _ d).
    + unfold raised_in, construct_and_raise, alloc. py_unfold.
      unfold set_report, set_store, log_call.
      cbn [snd self store calls config emitter report treat_errors_as_warnings].
      now rewrite insert_insert_eq.
    + now rewrite raised_in_self.
    + rewrite raised_in_operational. apply lookup_insert_eq.
  - rewrite except_OperationalError_failure by now rewrite raised_in_self.
    reflexivity.
Qed.

Lemma write_record_async_emit_raises
    (env : RecordEnvelope) (cb : WriteCallback) (w : World) (t : throw) :
  emit_does (gms (emitter (self w))) (record env) = Throws t ->
  write_record_async env cb w =
  handle env cb (raised_exn t w) (raised_in t w).
Proof.
  intros H. apply write_record_async_raised. now apply try_body_emit_raises.
Qed.

Lemma write_record_async_emit_succeeds
    (env : RecordEnvelope) (cb : WriteCallback) (w : World) :
  emit_does (gms (emitter (self w))) (record env) = Succeeds ->
  write_record_async env cb w =
  let w1 := written_world env w in
  match on_success_does cb env (VDictLit []) with
  | Succeeds => (Returned tt, w1)
  | Throws t =>
      handle env cb (raised_exn t w1) (raised_in t w1)
  end.
Proof.
  intros H. cbn zeta.
  pose proof (try_body_emit_succeeds env cb w H) as Hbody.
  rewrite perform_eq in Hbody.
  destruct (on_success_does cb env (VDictLit [])) as [|t].
  - now apply write_record_async_returned.
  - now apply write_record_async_raised.
Qed.

(** * What a collaborator's outcome leaves untouched *)

Lemma perform_self (b : behaviour) (w : World) : self (snd (perform b w)) = self w.
Proof. rewrite perform_eq. destruct b; [reflexivity | apply raised_in_self]. Qed.

Lemma perform_calls (b : behaviour) (w : World) : calls (snd (perform b w)) = calls w.
Proof. rewrite perform_eq. destruct b; [reflexivity | apply raised_in_calls]. Qed.

(** Raising allocates at most one new dictionary; those in the store stay. *)
Lemma perform_store (b : behaviour) (w : World) (l : loc) (d : dict) :
  store w !! l = Some d -> store (snd (perform b w)) !! l = Some d.
Proof.
  intros Hl. rewrite perform_eq. destruct b as [|[msg d0|cls text|cls text]]; try exact Hl.
  cbn [snd]. rewrite raised_in_operational.
  rewrite lookup_insert_ne; [exact Hl|].
  intros Heq. pose proof (alloc_fresh (store w)) as Hfresh.
  rewrite Heq in Hfresh. congruence.
Qed.

(** * The redaction, field by field *)

Lemma redact_stackTrace (r : MetadataRecord) (d : dict) :
  redact r d !! "stackTrace" = trim_trace <$> (d !! "stackTrace").
Proof.
  unfold redact.
  destruct (d !! "stackTrace") as [trace|] eqn:Ht; destruct r;
    rewrite ?lookup_insert_ne by discriminate;
    rewrite ?lookup_insert_eq, ?Ht; reflexivity.
Qed.

Lemma redact_id_wrapper (urn : option string) (payload : string) (d : dict) :
  redact (MetadataChangeProposalWrapper urn payload) d !! "id" = Some (urn_value urn).
Proof. unfold redact. apply lookup_insert_eq. Qed.

Lemma redact_id_other (r : MetadataRecord) (d : dict) :
  (forall urn payload, r <> MetadataChangeProposalWrapper urn payload) ->
  redact r d !! "id" = d !! "id".
Proof.
  intros Hr. unfold redact.
  destruct r; try (now destruct (Hr entityUrn payload));
    destruct (d !! "stackTrace"); rewrite ?lookup_insert_ne by discriminate; reflexivity.
Qed.

Lemma redact_other_fields (r : MetadataRecord) (d : dict) (k : string) :
  k <> "stackTrace" -> k <> "id" -> redact r d !! k = d !! k.
Proof.
  intros H1 H2. unfold redact.
  destruct (d !! "stackTrace"); destruct r;
    rewrite ?lookup_insert_ne by congruence; reflexivity.
Qed.

(** * Emission failures, end to end *)

Lemma emit_operational
    (env : RecordEnvelope) (cb : WriteCallback) (w : World) (msg : string) (d : dict) :
  emit_does (gms (emitter (self w))) (record env) = Throws (ThrowOperational msg d) ->
  write_record_async env cb w =
  let r := report (self w) in
  let l := fresh (dom (store w)) in
  let e := OperationalError msg l in
  perform (on_failure_does cb env e (VRef l))
    (log_call (OnFailure env e (VRef l))
       (if treat_errors_as_warnings (self w) then
          set_report (mkReport (records_written r) (warnings r ++ [warning_entry msg l]) (failures r))
            (set_store (<[l := redact (record env) d]> (store w)) w)
        else
          set_report (mkReport (records_written r) (warnings r) (failures r ++ [failure_entry msg l]))
            (set_store (<[l := d]> (store w)) w))).
Proof.
  intros H. rewrite (write_record_async_emit_raises env cb w _ H).
  apply (handle_raised env cb (ThrowOperational msg d) w).
Qed.

Lemma emit_unexpected
    (env : RecordEnvelope) (cb : WriteCallback) (w : World) (cls text : string) :
  emit_does (gms (emitter (self w))) (record env) = Throws (ThrowOther cls text) ->
  write_record_async env cb w =
  let r := report (self w) in
  let e := OtherError cls text in
  perform (on_failure_does cb env e (VDictLit []))
    (log_call (OnFailure env e (VDictLit []))
       (set_report (mkReport (records_written r) (warnings r) (failures r ++ [unexpected_entry e])) w)).
Proof.
  intros H. rewrite (write_record_async_emit_raises env cb w _ H).
  apply (handle_raised env cb (ThrowOther cls text) w).
Qed.

(** C4: an operational failure under the policy flag is a warning, not a
    failure: the warning count grows by exactly one and the failure count
    and the written count stay; the diagnostic stored is
    [{"warning": message, "info": e.info}], where a [stackTrace] string in
    [info] now holds its first two lines joined with a newline (the whole
    trace when it has at most two lines, and otherwise the text before its
    second newline), and where [id] holds the entity URN exactly when the
    record is a [MetadataChangeProposalWrapper]; [on_failure] is invoked
    once, with the error object and its (redacted) [info]. *)
Theorem C4_warning_path
    (env : RecordEnvelope) (cb : WriteCallback) (w : World) (msg : string) (d : dict) :
  treat_errors_as_warnings (self w) = true ->
  emit_does (gms (emitter (self w))) (record env) = Throws (ThrowOperational msg d) ->
  let l := fresh (dom (store w)) in
  let e := OperationalError msg l in
  let w' := snd (write_record_async env cb w) in
  let r := report (self w) in
  let r' := report (self w') in
  records_warned r' = S (records_warned r)
  /\ warnings r' = warnings r ++ [VDictLit [("warning", VStr msg); ("info", VRef l)]]
  /\ records_failed r' = records_failed r
  /\ failures r' = failures r
  /\ records_written r' = records_written r
  /\ calls w' = calls w ++ [OnFailure env e (VRef l)]
  /\ exists d' : dict,
       store w' !! l = Some d'
       /\ (forall s, d !! "stackTrace" = Some (VStr s) ->
           exists s', d' !! "stackTrace" = Some (VStr s')
                      /\ s' = join NL (slice_to 2 (split newline s))
                      /\ split newline s' = take 2 (split newline s)
                      /\ count_char newline s' <= 1
                      /\ (exists rest, s = s' +:+ rest)
                      /\ (count_char newline s <= 1 -> s' = s)
                      /\ (2 <= count_char newline s ->
                          count_char newline s' = 1
                          /\ exists rest, s = s' +:+ String newline rest))
       /\ (forall v, d !! "stackTrace" = Some v -> (forall s, v <> VStr s) ->
           d' !! "stackTrace" = Some v)
       /\ (d !! "stackTrace" = None -> d' !! "stackTrace" = None)
       /\ (forall urn payload,
           record env = MetadataChangeProposalWrapper (Some urn) payload ->
           d' !! "id" = Some (VStr urn))
       /\ (forall payload,
           record env = MetadataChangeProposalWrapper None payload ->
           d' !! "id" = Some VNone)
       /\ ((forall urn payload, record env <> MetadataChangeProposalWrapper urn payload) ->
           d' !! "id" = d !! "id")
       /\ (forall k, k <> "stackTrace" -> k <> "id" -> d' !! k = d !! k).
Proof.
  intros Hflag Hemit. cbn zeta.
  rewrite (emit_operational env cb w msg d Hemit). cbn zeta. rewrite Hflag.
  rewrite perform_self, perform_calls.
  unfold records_warned, records_failed.
  cbn [log_call set_report set_store self report warnings failures records_written calls].
  rewrite length_app, Nat.add_1_r.
  do 6 (split; [reflexivity|]).
  exists (redact (record env) d).
  split.
  { apply perform_store. cbn [log_call set_report set_store store]. apply lookup_insert_eq. }
  split.
  { intros s Hs. exists (trimmed s). rewrite redact_stackTrace, Hs.
    split; [reflexivity|]. split; [reflexivity|]. split; [apply trimmed_lines|].
    split; [apply trimmed_newlines|]. split; [apply trimmed_prefix|].
    split; [apply trimmed_fixed|].
    intros Hlong. destruct (trimmed_long s Hlong) as (Hcount & rest & Hrest).
    split; [exact Hcount | exists rest; exact Hrest]. }
  split.
  { intros v Hv Hnot. rewrite redact_stackTrace, Hv.
    destruct v; try reflexivity. now destruct (Hnot s). }
  split; [intros Hnone; now rewrite redact_stackTrace, Hnone|].
  split; [intros urn payload ->; apply redact_id_wrapper|].
  split; [intros payload ->; apply redact_id_wrapper|].
  split; [apply redact_id_other|].
  intros k H1 H2. now apply redact_other_fields.
Qed.

Lemma C4_warning_path_witness :
  let w' := snd (write_record_async wrapper_envelope quiet_callback
                   (started rejecting_gms true)) in
  records_warned (report (self w')) = 1
  /\ records_failed (report (self w')) = 0
  /\ deref (store w') 1%positive !! "stackTrace"
     = Some (VStr (String "a" (String newline (String "b" EmptyString))))
  /\ deref (store w') 1%positive !! "id" = Some (VStr "urn:li:dataset:1")
  /\ calls w'
     = [OnFailure wrapper_envelope (OperationalError "rejected" 1%positive) (VRef 1%positive)].
Proof.
  pose proof (C4_warning_path wrapper_envelope quiet_callback (started rejecting_gms true)
                "rejected" {[ "stackTrace" := VStr sample_trace ]} eq_refl eq_refl) as H.
  cbn zeta in H. cbn zeta.
  destruct H as (Hw & _ & Hf & _ & _ & Hc & d' & Hs & Htrace & _ & _ & Hid & _).
  destruct (Htrace sample_trace eq_refl) as (s' & Hs' & Heq & _).
  rewrite (deref_lookup _ 1%positive _ Hs).
  split; [exact Hw|]. split; [exact Hf|].
  split; [rewrite Hs', Heq; reflexivity|].
  split; [exact (Hid sample_urn "aspect" eq_refl) | exact Hc].
Defined.

(** The failure branch, shared by the statements below. *)
Lemma failure_branch
    (env : RecordEnvelope) (cb : WriteCallback) (w : World) (msg : string) (d : dict) :
  treat_errors_as_warnings (self w) = false ->
  emit_does (gms (emitter (self w))) (record env) = Throws (ThrowOperational msg d) ->
  let l := fresh (dom (store w)) in
  let w' := snd (write_record_async env cb w) in
  failures (report (self w')) = failures (report (self w)) ++ [failure_entry msg l]
  /\ warnings (report (self w')) = warnings (report (self w))
  /\ store w' !! l = Some d.
Proof.
  intros Hflag Hemit. cbn zeta.
  rewrite (emit_operational env cb w msg d Hemit). cbn zeta. rewrite Hflag.
  rewrite perform_self.
  cbn [log_call set_report set_store self report warnings failures].
  repeat split.
  apply perform_store. cbn [log_call set_report set_store store]. apply lookup_insert_eq.
Qed.

(** C5: an operational failure without the policy flag is a failure: the
    failure count grows by exactly one, the entry is
    [{"error": message, "info": e.info}] with the [info] dictionary left as
    the transport built it, and [on_failure] is invoked once with the error
    object and its [info]. *)
Theorem C5_failure_path
    (env : RecordEnvelope) (cb : WriteCallback) (w : World) (msg : string) (d : dict) :
  treat_errors_as_warnings (self w) = false ->
  emit_does (gms (emitter (self w))) (record env) = Throws (ThrowOperational msg d) ->
  let l := fresh (dom (store w)) in
  let e := OperationalError msg l in
  let w' := snd (write_record_async env cb w) in
  let r := report (self w) in
  let r' := report (self w') in
  records_failed r' = S (records_failed r)
  /\ failures r' = failures r ++ [VDictLit [("error", VStr msg); ("info", VRef l)]]
  /\ warnings r' = warnings r
  /\ records_written r' = records_written r
  /\ store w' !! l = Some d
  /\ calls w' = calls w ++ [OnFailure env e (VRef l)].
Proof.
  intros Hflag Hemit. cbn zeta.
  rewrite (emit_operational env cb w msg d Hemit). cbn zeta. rewrite Hflag.
  rewrite perform_self, perform_calls.
  unfold records_failed.
  cbn [log_call set_report set_store self report warnings failures records_written calls].
  rewrite length_app, Nat.add_1_r.
  repeat split.
  apply perform_store. cbn [log_call set_report set_store store]. apply lookup_insert_eq.
Qed.

Lemma C5_failure_path_witness :
  failures
    (report (self (snd (write_record_async wrapper_envelope quiet_callback
                          (started rejecting_gms false)))))
  = [VDictLit [("error", VStr "rejected"); ("info", VRef 1%positive)]]
  /\ store (snd (write_record_async wrapper_envelope quiet_callback
                   (started rejecting_gms false))) !! 1%positive
     = Some {[ "stackTrace" := VStr sample_trace ]}.
Proof.
  pose proof (C5_failure_path wrapper_envelope quiet_callback (started rejecting_gms false)
                "rejected" {[ "stackTrace" := VStr sample_trace ]} eq_refl eq_refl) as H.
  cbn zeta in H. destruct H as (_ & Hf & _ & _ & Hs & _). split; [exact Hf | exact Hs].
Defined.

(** C6, as the code has it: an exception raised by the emission that is
    an instance of [Exception] without being an [OperationalError] is a
    failure whatever the policy flag says: the failure count grows by one,
    the entry is [{"e": e}], no dictionary of the store is touched, and
    [on_failure] is invoked once with the envelope, the exception and an
    empty dictionary.  An exception that is not an instance of [Exception]
    is caught by neither clause: it leaves the call with the report, the
    store and the callback log as they were. *)
Theorem C6_unexpected_path
    (env : RecordEnvelope) (cb : WriteCallback) (w : World) (t : throw) :
  emit_does (gms (emitter (self w))) (record env) = Throws t ->
  let run := write_record_async env cb w in
  let w' := snd run in
  let r := report (self w) in
  let r' := report (self w') in
  match t with
  | ThrowOperational _ _ => True
  | ThrowOther cls text =>
      let e := OtherError cls text in
      records_failed r' = S (records_failed r)
      /\ failures r' = failures r ++ [VDictLit [("e", VExn e)]]
      /\ warnings r' = warnings r
      /\ records_written r' = records_written r
      /\ treat_errors_as_warnings (self w') = treat_errors_as_warnings (self w)
      /\ (forall l d, store w !! l = Some d -> store w' !! l = Some d)
      /\ calls w' = calls w ++ [OnFailure env e (VDictLit [])]
  | ThrowNonException cls text =>
      run = (Raised (NonException cls text), w)
  end.
Proof.
  intros Hemit. cbn zeta.
  rewrite (write_record_async_emit_raises env cb w t Hemit), handle_raised. cbn zeta.
  destruct t as [msg d|cls text|cls text]; [exact I| |reflexivity].
  rewrite perform_self, perform_calls.
  unfold records_failed.
  cbn [log_call set_report set_store self report warnings failures records_written calls
       treat_errors_as_warnings].
  rewrite length_app, Nat.add_1_r.
  repeat split.
  intros l d Hl. apply perform_store. exact Hl.
Qed.

Lemma C6_unexpected_path_witness :
  failures
    (report (self (snd (write_record_async usage_envelope quiet_callback
                          (started faulty_gms true)))))
  = [VDictLit [("e", VExn (OtherError "RuntimeError" "connection reset"))]]
  /\ calls (snd (write_record_async usage_envelope quiet_callback (started faulty_gms true)))
     = [OnFailure usage_envelope (OtherError "RuntimeError" "connection reset") (VDictLit [])].
Proof.
  pose proof (C6_unexpected_path usage_envelope quiet_callback (started faulty_gms true)
                (ThrowOther "RuntimeError" "connection reset") eq_refl) as H.
  cbn zeta in H. cbn iota in H.
  destruct H as (_ & Hf & _ & _ & _ & _ & Hc). split; [exact Hf | exact Hc].
Defined.

(** C6 as stated fails: the emission raises [KeyboardInterrupt], which is
    not an instance of [Exception]; no failure entry is recorded, no
    callback is invoked, and the exception leaves the call. *)
Lemma C6_counterexample :
  let w := started interrupted_gms false in
  let run := write_record_async usage_envelope quiet_callback w in
  emit_does (gms (emitter (self w))) (record usage_envelope)
  = Throws (ThrowNonException "KeyboardInterrupt" "")
  /\ fst run = Raised (NonException "KeyboardInterrupt" "")
  /\ records_failed (report (self w)) = 0
  /\ records_failed (report (self (snd run))) = 0
  /\ failures (report (self (snd run))) = []
  /\ calls (snd run) = [].
Proof. cbn zeta. repeat split; vm_compute; reflexivity. Qed.

(** C1, as the code has it: the warning branch makes no copy.  It assigns
    into [e.info] itself, so after [write_record_async] the error's own
    [info] dictionary holds the redacted mapping (a [stackTrace] string
    trimmed to two lines, [id] set for a [MetadataChangeProposalWrapper],
    every other field as before), and it is this one dictionary object
    that the warning entry refers to and that [on_failure] receives. *)
Theorem C1_redaction_in_place
    (env : RecordEnvelope) (cb : WriteCallback) (w : World) (msg : string) (d : dict) :
  treat_errors_as_warnings (self w) = true ->
  emit_does (gms (emitter (self w))) (record env) = Throws (ThrowOperational msg d) ->
  let l := fresh (dom (store w)) in
  let e := OperationalError msg l in
  let w' := snd (write_record_async env cb w) in
  store w' !! l = Some (redact (record env) d)
  /\ (forall s, d !! "stackTrace" = Some (VStr s) ->
      deref (store w') l !! "stackTrace" = Some (VStr (join NL (slice_to 2 (split newline s)))))
  /\ (forall urn payload,
      record env = MetadataChangeProposalWrapper urn payload ->
      deref (store w') l !! "id" = Some (urn_value urn))
  /\ (forall k, k <> "stackTrace" -> k <> "id" -> deref (store w') l !! k = d !! k)
  /\ last (warnings (report (self w'))) = Some (VDictLit [("warning", VStr msg); ("info", VRef l)])
  /\ last (calls w') = Some (OnFailure env e (VRef l)).
Proof.
  intros Hflag Hemit. cbn zeta.
  assert (Hstore : store (snd (write_record_async env cb w)) !! fresh (dom (store w))
                   = Some (redact (record env) d)).
  { rewrite (emit_operational env cb w msg d Hemit). cbn zeta. rewrite Hflag.
    apply perform_store. cbn [log_call set_report set_store store]. apply lookup_insert_eq. }
  rewrite (deref_lookup _ _ _ Hstore).
  split; [exact Hstore|].
  split; [intros s Hs; now rewrite redact_stackTrace, Hs|].
  split; [intros urn payload ->; apply redact_id_wrapper|].
  split; [intros k H1 H2; now apply redact_other_fields|].
  rewrite (emit_operational env cb w msg d Hemit). cbn zeta. rewrite Hflag.
  rewrite perform_self, perform_calls.
  cbn [log_call set_report set_store self report warnings calls].
  now rewrite !last_snoc.
Qed.

Lemma C1_redaction_in_place_witness :
  deref (store (snd (write_record_async wrapper_envelope quiet_callback
                       (started rejecting_gms true)))) 1%positive !! "id"
  = Some (VStr sample_urn).
Proof.
  pose proof (C1_redaction_in_place wrapper_envelope quiet_callback (started rejecting_gms true)
                "rejected" {[ "stackTrace" := VStr sample_trace ]} eq_refl eq_refl) as H.
  cbn zeta in H. destruct H as (_ & _ & Hid & _).
  exact (Hid (Some sample_urn) "aspect" eq_refl).
Defined.

(** C1 as stated fails: with the flag set, a rejected wrapper record whose
    error carries a four-line [stackTrace] leaves the error's [info]
    dictionary with a two-line [stackTrace] and an [id] field. *)
Lemma C1_counterexample :
  let w := started rejecting_gms true in
  let l := fresh (dom (store w)) in
  let original : dict := {[ "stackTrace" := VStr sample_trace ]} in
  let r := write_record_async wrapper_envelope quiet_callback w in
  treat_errors_as_warnings (self w) = true
  /\ emit_does (gms (emitter (self w))) (record wrapper_envelope)
     = Throws (ThrowOperational "rejected" original)
  /\ fst r = Returned tt
  /\ calls (snd r) = [OnFailure wrapper_envelope (OperationalError "rejected" l) (VRef l)]
  /\ original !! "id" = None
  /\ deref (store (snd r)) l !! "id" = Some (VStr sample_urn)
  /\ deref (store (snd r)) l !! "stackTrace" = Some (VStr ("a" +:+ NL +:+ "b"))
  /\ store (snd r) !! l <> Some original.
Proof.
  cbn zeta. repeat split; try (vm_compute; reflexivity).
  intros H.
  apply (f_equal (fun o : option dict => o ≫= (fun m : dict => m !! "id"))) in H.
  vm_compute in H. discriminate.
Qed.

(** * Every handler: one entry, one [on_failure] *)

(** Running the [except] clauses on an instance of [Exception] built from
    [t] in world [w] adds one entry to the report and ends with one
    invocation of [on_failure], whose outcome is the outcome of the
    clause. *)
Lemma handled_effect (env : RecordEnvelope) (cb : WriteCallback) (t : throw) (w : World) :
  caught t = true ->
  exists (md : value) (w2 : World),
    handle env cb (raised_exn t w) (raised_in t w)
    = perform (on_failure_does cb env (raised_exn t w) md) w2
    /\ calls w2 = calls w ++ [OnFailure env (raised_exn t w) md]
    /\ accounted (report (self w2)) = S (accounted (report (self w)))
    /\ records_written (report (self w2)) = records_written (report (self w))
    /\ config (self w2) = config (self w)
    /\ emitter (self w2) = emitter (self w)
    /\ treat_errors_as_warnings (self w2) = treat_errors_as_warnings (self w)
    /\ match raised_exn t w with
       | OperationalError _ l => md = VRef l
       | _ => md = VDictLit []
       end.
Proof.
  intros Hcaught. rewrite handle_raised. cbn zeta.
  destruct t as [msg d|cls text|cls text]; cbn [raised_exn]; [| |discriminate].
  - eexists _, _. split; [reflexivity|].
    unfold accounted, records_warned, records_failed.
    destruct (treat_errors_as_warnings (self w)) eqn:Hflag;
      cbn [log_call set_report set_store self report warnings failures records_written
           calls config emitter treat_errors_as_warnings];
      rewrite ?length_app; cbn [List.length]; repeat split; auto; try lia.
  - eexists _, _. split; [reflexivity|].
    unfold accounted, records_warned, records_failed.
    cbn [log_call set_report set_store self report warnings failures records_written
         calls config emitter treat_errors_as_warnings].
    rewrite ?length_app; cbn [List.length]; repeat split; auto; try lia.
Qed.

(** No clause matches an exception that is not an instance of [Exception]. *)
Lemma handle_uncaught
    (env : RecordEnvelope) (cb : WriteCallback) (cls text : string) (w : World) :
  handle env cb (NonException cls text) w = (Raised (NonException cls text), w).
Proof. reflexivity. Qed.

Lemma caught_cases (t : throw) :
  (caught t = true /\ forall cls text, t <> ThrowNonException cls text)
  \/ (caught t = false /\ exists cls text, t = ThrowNonException cls text).
Proof. destruct t; [left | left | right]; split; eauto; discriminate. Qed.

(** Where an exception of the [try] body comes from: the emission, or
    [on_success] after the record was counted as written. *)
Lemma try_body_raised_inv
    (env : RecordEnvelope) (cb : WriteCallback) (w w1 : World) (e : exn) :
  try_body env cb w = (Raised e, w1) ->
  exists (t : throw) (w0 : World),
    e = raised_exn t w0 /\ w1 = raised_in t w0
    /\ ((w0 = w /\ emit_does (gms (emitter (self w))) (record env) = Throws t)
        \/ (w0 = written_world env w
            /\ emit_does (gms (emitter (self w))) (record env) = Succeeds
            /\ on_success_does cb env (VDictLit []) = Throws t)).
Proof.
  intros H.
  destruct (emit_does (gms (emitter (self w))) (record env)) as [|t] eqn:Hemit.
  - rewrite (try_body_emit_succeeds env cb w Hemit), perform_eq in H.
    destruct (on_success_does cb env (VDictLit [])) as [|t] eqn:Hcb; [discriminate|].
    injection H as <- <-. exists t, (written_world env w). tauto.
  - rewrite (try_body_emit_raises env cb w t Hemit) in H.
    injection H as <- <-. exists t, w. tauto.
Qed.

Lemma written_world_facts (env : RecordEnvelope) (w : World) :
  calls (written_world env w) = calls w ++ [OnSuccess env (VDictLit [])]
  /\ accounted (report (self (written_world env w))) = S (accounted (report (self w)))
  /\ config (self (written_world env w)) = config (self w)
  /\ emitter (self (written_world env w)) = emitter (self w)
  /\ treat_errors_as_warnings (self (written_world env w)) = treat_errors_as_warnings (self w).
Proof. unfold accounted. repeat split. Qed.

(** * The three shapes of a call *)

(** Either the [try] body returns, and the call ends after [on_success];
    or it raises an instance of [Exception], and the call ends with the
    outcome of one [on_failure], invoked after one more entry was added to
    the report; or it raises another exception, which leaves the call as
    it is. *)
Lemma write_record_async_shape (env : RecordEnvelope) (cb : WriteCallback) (w : World) :
  (emit_does (gms (emitter (self w))) (record env) = Succeeds
   /\ on_success_does cb env (VDictLit []) = Succeeds
   /\ try_body env cb w = (Returned tt, written_world env w)
   /\ write_record_async env cb w = (Returned tt, written_world env w))
  \/ (exists (t : throw) (w0 : World) (md : value) (w2 : World),
        caught t = true
        /\ try_body env cb w = (Raised (raised_exn t w0), raised_in t w0)
        /\ write_record_async env cb w
           = perform (on_failure_does cb env (raised_exn t w0) md) w2
        /\ calls w2 = calls w0 ++ [OnFailure env (raised_exn t w0) md]
        /\ accounted (report (self w2)) = S (accounted (report (self w0)))
        /\ config (self w2) = config (self w0)
        /\ emitter (self w2) = emitter (self w0)
        /\ treat_errors_as_warnings (self w2) = treat_errors_as_warnings (self w0)
        /\ match raised_exn t w0 with
           | OperationalError _ l => md = VRef l
           | _ => md = VDictLit []
           end
        /\ ((w0 = w /\ emit_does (gms (emitter (self w))) (record env) = Throws t)
            \/ (w0 = written_world env w
                /\ emit_does (gms (emitter (self w))) (record env) = Succeeds
                /\ on_success_does cb env (VDictLit []) = Throws t)))
  \/ (exists (cls text : string) (w0 : World),
        try_body env cb w = (Raised (NonException cls text), w0)
        /\ write_record_async env cb w = (Raised (NonException cls text), w0)
        /\ ((w0 = w
             /\ emit_does (gms (emitter (self w))) (record env)
                = Throws (ThrowNonException cls text))
            \/ (w0 = written_world env w
                /\ emit_does (gms (emitter (self w))) (record env) = Succeeds
                /\ on_success_does cb env (VDictLit []) = Throws (ThrowNonException cls text)))).
Proof.
  destruct (try_body env cb w) as [[[]|e] w1] eqn:Hbody.
  - left.
    destruct (emit_does (gms (emitter (self w))) (record env)) as [|t] eqn:Hemit.
    + pose proof (try_body_emit_succeeds env cb w Hemit) as H.
      rewrite Hbody, perform_eq in H.
      destruct (on_success_does cb env (VDictLit [])) as [|t]; [|discriminate].
      injection H as ->. repeat split.
      now apply write_record_async_returned.
    + rewrite (try_body_emit_raises env cb w t Hemit) in Hbody. discriminate.
  - destruct (try_body_raised_inv env cb w w1 e Hbody) as (t & w0 & -> & -> & Horigin).
    pose proof (write_record_async_raised env cb w _ _ Hbody) as Hrun.
    destruct (caught_cases t) as [[Hc _]|[_ (cls & text & ->)]].
    + right; left.
      destruct (handled_effect env cb t w0 Hc)
        as (md & w2 & Hh & Hcalls & Hacc & _ & Hcfg & Hem & Hfl & Hmd).
      exists t, w0, md, w2. rewrite Hrun, Hh. repeat split; assumption.
    + right; right. exists cls, text, w0.
      split; [reflexivity|]. split; [exact Hrun | exact Horigin].
Qed.

(** A call never touches the configuration, the emitter or the flag. *)
Lemma write_record_async_frame (env : RecordEnvelope) (cb : WriteCallback) (w : World) :
  let w' := snd (write_record_async env cb w) in
  config (self w') = config (self w)
  /\ emitter (self w') = emitter (self w)
  /\ treat_errors_as_warnings (self w') = treat_errors_as_warnings (self w).
Proof.
  cbn zeta.
  destruct (write_record_async_shape env cb w)
    as [(_ & _ & _ & ->)
       |[(t & w0 & md & w2 & _ & _ & -> & _ & _ & Hc & He & Hf & _ & Horigin)
        |(cls & text & w0 & _ & -> & Horigin)]].
  - repeat split.
  - rewrite perform_self, Hc, He, Hf.
    destruct Horigin as [(-> & _)|(-> & _)]; repeat split.
  - cbn [snd]. destruct Horigin as [(-> & _)|(-> & _)]; repeat split.
Qed.

Lemma calls_during_app (w w' : World) (evs : list CallbackEvent) :
  calls w' = calls w ++ evs -> calls_during w w' = evs.
Proof. intros H. unfold calls_during. rewrite H. apply drop_app_length. Qed.

(** The callback invocations of a call, by what the transport and
    [on_success] do. *)
Lemma write_record_async_calls (env : RecordEnvelope) (cb : WriteCallback) (w : World) :
  let w' := snd (write_record_async env cb w) in
  match emit_does (gms (emitter (self w))) (record env) with
  | Throws (ThrowNonException _ _) => calls w' = calls w
  | Throws t => exists md, calls w' = calls w ++ [OnFailure env (raised_exn t w) md]
  | Succeeds =>
      match on_success_does cb env (VDictLit []) with
      | Succeeds => calls w' = calls w ++ [OnSuccess env (VDictLit [])]
      | Throws (ThrowNonException _ _) => calls w' = calls w ++ [OnSuccess env (VDictLit [])]
      | Throws t =>
          exists md, calls w' = calls w ++ [OnSuccess env (VDictLit []);
                                            OnFailure env (raised_exn t (written_world env w)) md]
      end
  end.
Proof.
  cbn zeta.
  destruct (write_record_async_shape env cb w)
    as [(Hemit & Hcb & _ & ->)
       |[(t & w0 & md & w2 & Hc & _ & -> & Hcalls & _ & _ & _ & _ & _ & Horigin)
        |(cls & text & w0 & _ & -> & Horigin)]].
  - rewrite Hemit, Hcb. reflexivity.
  - rewrite perform_calls, Hcalls.
    destruct Horigin as [(-> & ->)|(-> & -> & ->)];
      destruct t; try discriminate; try (now exists md);
      exists md; cbn [written_world log_call calls]; now rewrite <- app_assoc.
  - cbn [snd]. destruct Horigin as [(-> & ->)|(-> & -> & ->)]; reflexivity.
Qed.

(** C2, as the code has it: a call makes at most two callback invocations.
    When the emission raises an instance of [Exception], [on_failure] is
    invoked once and [on_success] is not.  When the emission raises an
    exception that is not an instance of [Exception], no callback is
    invoked.  When the emission succeeds, [on_success] is invoked once;
    if that invocation raises an instance of [Exception], the exception
    is caught by the same [try] and [on_failure] is invoked as well, and
    otherwise it is the only invocation. *)
Theorem C2_callback_invocations (env : RecordEnvelope) (cb : WriteCallback) (w : World) :
  let w' := snd (write_record_async env cb w) in
  let evs := calls_during w w' in
  calls w' = calls w ++ evs
  /\ match emit_does (gms (emitter (self w))) (record env) with
     | Throws (ThrowNonException _ _) => evs = []
     | Throws t => exists md, evs = [OnFailure env (raised_exn t w) md]
     | Succeeds =>
         match on_success_does cb env (VDictLit []) with
         | Succeeds => evs = [OnSuccess env (VDictLit [])]
         | Throws (ThrowNonException _ _) => evs = [OnSuccess env (VDictLit [])]
         | Throws t =>
             exists md, evs = [OnSuccess env (VDictLit []);
                               OnFailure env (raised_exn t (written_world env w)) md]
         end
     end
  /\ List.length evs <= 2
  /\ (List.length evs = 0 <->
      exists cls text,
        emit_does (gms (emitter (self w))) (record env) = Throws (ThrowNonException cls text))
  /\ (List.length evs = 2 <->
      emit_does (gms (emitter (self w))) (record env) = Succeeds
      /\ exists t, on_success_does cb env (VDictLit []) = Throws t
                   /\ forall cls text, t <> ThrowNonException cls text).
Proof.
  cbn zeta. pose proof (write_record_async_calls env cb w) as H. cbn zeta in H.
  destruct (emit_does (gms (emitter (self w))) (record env)) as [|[msg d|cls text|cls text]].
  - destruct (on_success_does cb env (VDictLit [])) as [|[msg d|cls text|cls text]].
    + rewrite (calls_during_app _ _ _ H). split; [exact H|]. split; [reflexivity|].
      split; [cbn; lia|]. split.
      * split; [discriminate | intros (? & ? & [=])].
      * split; [discriminate | intros (_ & t & [=] & _)].
    + destruct H as (md & H). rewrite (calls_during_app _ _ _ H).
      split; [exact H|]. split; [by exists md|]. split; [cbn; lia|]. split.
      * split; [discriminate | intros (? & ? & [=])].
      * split; [|reflexivity]. intros _. split; [reflexivity|].
        eexists. split; [reflexivity | discriminate].
    + destruct H as (md & H). rewrite (calls_during_app _ _ _ H).
      split; [exact H|]. split; [by exists md|]. split; [cbn; lia|]. split.
      * split; [discriminate | intros (? & ? & [=])].
      * split; [|reflexivity]. intros _. split; [reflexivity|].
        eexists. split; [reflexivity | discriminate].
    + rewrite (calls_during_app _ _ _ H). split; [exact H|]. split; [reflexivity|].
      split; [cbn; lia|]. split.
      * split; [discriminate | intros (? & ? & [=])].
      * split; [discriminate|]. intros (_ & t & [= <-] & Hne). now destruct (Hne cls text).
  - destruct H as (md & H). rewrite (calls_during_app _ _ _ H).
    split; [exact H|]. split; [by exists md|]. split; [cbn; lia|]. split.
    + split; [discriminate | intros (? & ? & [=])].
    + split; [discriminate | intros ([=] & _)].
  - destruct H as (md & H). rewrite (calls_during_app _ _ _ H).
    split; [exact H|]. split; [by exists md|]. split; [cbn; lia|]. split.
    + split; [discriminate | intros (? & ? & [=])].
    + split; [discriminate | intros ([=] & _)].
  - assert (H' : calls (snd (write_record_async env cb w)) = calls w ++ [])
      by (rewrite app_nil_r; exact H).
    rewrite (calls_during_app _ _ _ H'). split; [exact H'|]. split; [reflexivity|].
    split; [cbn; lia|]. split.
    + split; [eauto | reflexivity].
    + split; [discriminate | intros ([=] & _)].
Qed.

(** C2 as stated fails: the emission succeeds, [on_success] raises, and
    the same call goes on to invoke [on_failure]. *)
Lemma C2_counterexample :
  let w := started accepting_gms false in
  let r := write_record_async event_envelope success_raising_callback w in
  fst r = Returned tt
  /\ calls w = []
  /\ calls (snd r)
     = [OnSuccess event_envelope (VDictLit []);
        OnFailure event_envelope (OtherError "ValueError" "in on_success") (VDictLit [])]
  /\ List.length (calls_during w (snd r)) = 2.
Proof. cbn zeta. repeat split; vm_compute; reflexivity. Qed.

Lemma perform_returned (b : behaviour) (w : World) :
  fst (perform b w) = Returned tt <-> b = Succeeds.
Proof. rewrite perform_eq. destruct b; cbn; split; congruence. Qed.

Lemma perform_raised (b : behaviour) (w : World) (x : exn) :
  fst (perform b w) = Raised x -> exists t, b = Throws t /\ raises t x.
Proof.
  rewrite perform_eq. destruct b as [|t]; cbn [fst]; [discriminate|].
  intros [= <-]. exists t. split; [reflexivity|].
  destruct t; cbn [raised_exn raises]; eauto.
Qed.

(** What becomes of an exception raised in the [try] body. *)
Lemma raised_outcomes
    (env : RecordEnvelope) (cb : WriteCallback) (w w1 : World) (e : exn) :
  try_body env cb w = (Raised e, w1) ->
  let run := write_record_async env cb w in
  let evs := calls_during w (snd run) in
  match e with
  | NonException cls text =>
      run = (Raised e, w1) /\ forall e' md, last evs <> Some (OnFailure env e' md)
  | _ =>
      exists md,
        last evs = Some (OnFailure env e md)
        /\ match e with
           | OperationalError _ l => md = VRef l
           | _ => md = VDictLit []
           end
        /\ accounted (report (self (snd run))) = S (accounted (report (self w1)))
        /\ (fst run = Returned tt <-> on_failure_does cb env e md = Succeeds)
        /\ (forall x, fst run = Raised x ->
            exists t, on_failure_does cb env e md = Throws t /\ raises t x)
  end.
Proof.
  intros Hbody0. cbn zeta.
  destruct (write_record_async_shape env cb w)
    as [(Hemit & Hcb & Hbody & Hrun)
       |[(t & w0 & md & w2 & Hc & Hbody & Hrun & Hcalls2 & Hacc & _ & _ & _ & Hmd & Horigin)
        |(cls & text & w0 & Hbody & Hrun & Horigin)]];
    rewrite Hbody in Hbody0; [discriminate| |].
  - injection Hbody0 as <- <-.
    assert (Hlast : last (calls_during w (snd (write_record_async env cb w)))
                    = Some (OnFailure env (raised_exn t w0) md)).
    { rewrite Hrun. destruct Horigin as [(-> & _)|(-> & _)].
      - erewrite calls_during_app by (rewrite perform_calls; exact Hcalls2). reflexivity.
      - erewrite calls_during_app
          by (rewrite perform_calls, Hcalls2; cbn [written_world log_call calls];
              rewrite <- app_assoc; reflexivity).
        reflexivity. }
    assert (Hrest :
      accounted (report (self (snd (write_record_async env cb w))))
      = S (accounted (report (self (raised_in t w0))))
      /\ (fst (write_record_async env cb w) = Returned tt
          <-> on_failure_does cb env (raised_exn t w0) md = Succeeds)
      /\ (forall x, fst (write_record_async env cb w) = Raised x ->
          exists t', on_failure_does cb env (raised_exn t w0) md = Throws t' /\ raises t' x)).
    { rewrite Hrun, perform_self, Hacc, raised_in_self.
      split; [reflexivity|]. split; [apply perform_returned | apply perform_raised]. }
    destruct t; [| |discriminate]; cbn [raised_exn] in *; exists md; tauto.
  - injection Hbody0 as <- <-. split; [exact Hrun|]. rewrite Hrun. cbn [snd].
    destruct Horigin as [(-> & _)|(-> & _)].
    + intros e md. unfold calls_during. rewrite drop_all. discriminate.
    + intros e md. erewrite calls_during_app by reflexivity. discriminate.
Qed.

(** C3, as the code has it, by what the [try] body does.  If it returns,
    the call returns.  If it raises an instance of [Exception] (from the
    emission or from [on_success]), the exception is caught, recorded in
    the report and handed to [on_failure]; the handlers are not guarded,
    so the call then returns normally exactly when that [on_failure]
    returns normally, and what [on_failure] raises propagates to the
    caller.  If it raises an exception that is not an instance of
    [Exception], no clause catches it: it propagates with nothing recorded
    for it and no [on_failure]. *)
Theorem C3_propagation (env : RecordEnvelope) (cb : WriteCallback) (w : World) :
  let run := write_record_async env cb w in
  let evs := calls_during w (snd run) in
  (forall w1, try_body env cb w = (Returned tt, w1) -> run = (Returned tt, w1))
  /\ (forall e w1,
      try_body env cb w = (Raised e, w1) ->
      (forall cls text, e <> NonException cls text) ->
      exists md,
        last evs = Some (OnFailure env e md)
        /\ accounted (report (self (snd run))) = S (accounted (report (self w1)))
        /\ (fst run = Returned tt <-> on_failure_does cb env e md = Succeeds)
        /\ (forall x, fst run = Raised x ->
            exists t, on_failure_does cb env e md = Throws t /\ raises t x))
  /\ (forall cls text w1,
      try_body env cb w = (Raised (NonException cls text), w1) ->
      run = (Raised (NonException cls text), w1)
      /\ (forall e md, last evs <> Some (OnFailure env e md))).
Proof.
  cbn zeta.
  split; [intros w1 H; now apply write_record_async_returned|].
  split.
  - intros e w1 Hbody Hne. pose proof (raised_outcomes env cb w w1 e Hbody) as H.
    cbn zeta in H.
    destruct e as [msg l|cls text|cls text]; [| |now destruct (Hne cls text)];
      destruct H as (md & Hlast & _ & Hrest); exists md; tauto.
  - intros cls text w1 Hbody. exact (raised_outcomes env cb w w1 _ Hbody).
Qed.

(** C3 as stated fails: the emission raises, the failure is recorded, and
    the exception raised by [on_failure] leaves [write_record_async]. *)
Lemma C3_counterexample :
  let w := started faulty_gms false in
  let r := write_record_async usage_envelope failure_raising_callback w in
  emit_does (gms (emitter (self w))) (record usage_envelope)
  = Throws (ThrowOther "RuntimeError" "connection reset")
  /\ calls (snd r)
     = [OnFailure usage_envelope (OtherError "RuntimeError" "connection reset") (VDictLit [])]
  /\ fst r = Raised (OtherError "RuntimeError" "in on_failure").
Proof. cbn zeta. repeat split; vm_compute; reflexivity. Qed.

(** * Sequences of calls *)

Lemma drive_app (cs cs' : list SinkCall) (w : World) :
  drive (cs ++ cs') w = drive cs' (drive cs w).
Proof. unfold drive. apply foldl_app. Qed.

Lemma drive_cons (c : SinkCall) (cs : list SinkCall) (w : World) :
  drive (c :: cs) w = drive cs (snd (run_call c w)).
Proof. reflexivity. Qed.

Lemma submitted_cons (c : SinkCall) (cs : list SinkCall) :
  submitted (c :: cs) = (if is_write c then 1 else 0) + submitted cs.
Proof.
  unfold submitted. destruct (is_write c) eqn:E.
  - rewrite filter_cons_True by exact E. reflexivity.
  - rewrite filter_cons_False by congruence. reflexivity.
Qed.

Lemma run_call_emitter (c : SinkCall) (w : World) :
  emitter (self (snd (run_call c w))) = emitter (self w).
Proof.
  destruct c as [[id flag|id]|wu|env cb]; try reflexivity.
  apply (write_record_async_frame env cb w).
Qed.

Lemma drive_emitter (cs : list SinkCall) (w : World) :
  emitter (self (drive cs w)) = emitter (self w).
Proof.
  revert w; induction cs as [|c cs IH]; intros w; [reflexivity|].
  now rewrite drive_cons, IH, run_call_emitter.
Qed.

(** The entries a call adds to the report. *)
Lemma run_call_entries (c : SinkCall) (w : World) :
  accounted (report (self (snd (run_call c w))))
  = accounted (report (self w)) + entries_added (gms (emitter (self w))) c.
Proof.
  destruct c as [[id flag|id]|wu|env cb]; cbn [run_call entries_added];
    try (cbn; lia).
  destruct (write_record_async_shape env cb w)
    as [(Hemit & Hcb & _ & ->)
       |[(t & w0 & md & w2 & Hc & _ & -> & _ & Hacc & _ & _ & _ & _ & Horigin)
        |(cls & text & w0 & _ & -> & Horigin)]].
  - rewrite Hemit, Hcb. cbn [snd].
    destruct (written_world_facts env w) as (_ & -> & _). lia.
  - rewrite perform_self, Hacc.
    destruct Horigin as [(-> & ->)|(-> & -> & ->)].
    + destruct t; try discriminate; lia.
    + destruct (written_world_facts env w) as (_ & -> & _).
      destruct t; try discriminate; lia.
  - cbn [snd]. destruct Horigin as [(-> & ->)|(-> & -> & ->)]; [lia|].
    destruct (written_world_facts env w) as (_ & -> & _). lia.
Qed.

Lemma one_entry_added (remote : Gms) (c : SinkCall) :
  one_entry remote c -> entries_added remote c = if is_write c then 1 else 0.
Proof.
  destruct c as [wu|wu|env cb]; cbn [one_entry entries_added is_write]; try reflexivity.
  destruct (emit_does remote (record env)) as [|[]]; try tauto.
  destruct (on_success_does cb env (VDictLit [])) as [|[]]; tauto.
Qed.

(** C7, as the code has it: written + warned + failed grows, call by
    call, by the number of entries that the transport and the callback
    make the call add: none when the emission raises an exception that is
    not an instance of [Exception], two when the emission succeeds and
    [on_success] raises an instance of [Exception], and one otherwise.  So
    when neither of the two exceptional cases occurs for any submitted
    record, written + warned + failed grows by the number of records
    submitted. *)
Theorem C7_accounted (cs : list SinkCall) (w : World) :
  accounted (report (self (drive cs w)))
  = accounted (report (self w)) + sum_list (entries_added (gms (emitter (self w))) <$> cs)
  /\ (Forall (one_entry (gms (emitter (self w)))) cs ->
      accounted (report (self (drive cs w))) = accounted (report (self w)) + submitted cs).
Proof.
  assert (Hexact : forall cs w,
             accounted (report (self (drive cs w)))
             = accounted (report (self w))
               + sum_list (entries_added (gms (emitter (self w))) <$> cs)).
  { clear. intros cs. induction cs as [|c cs IH]; intros w.
    - change (drive [] w) with w. cbn. lia.
    - rewrite drive_cons, IH, run_call_emitter, run_call_entries. cbn. lia. }
  split; [apply Hexact|].
  intros Hone. rewrite Hexact. f_equal.
  induction Hone as [|c cs Hc Hcs IH]; [reflexivity|].
  rewrite submitted_cons, <- IH, fmap_cons. cbn [sum_list sum_list_with].
  now rewrite (one_entry_added _ c Hc).
Qed.

Lemma C7_accounted_witness :
  accounted (report (self (drive scenario_calls (started scenario_gms true)))) = 3.
Proof.
  assert (H : Forall (one_entry scenario_gms) scenario_calls)
    by (repeat constructor).
  exact (proj2 (C7_accounted scenario_calls (started scenario_gms true)) H).
Defined.

(** C7 as stated fails: one record is submitted, its emission succeeds and
    its [on_success] raises; the report then holds one written record and
    one failure entry. *)
Lemma C7_counterexample :
  let w := started accepting_gms false in
  let cs := [Call_write_record_async event_envelope success_raising_callback] in
  let r := report (self (drive cs w)) in
  accounted (report (self w)) = 0
  /\ submitted cs = 1
  /\ records_written r = 1
  /\ records_warned r = 0
  /\ records_failed r = 1
  /\ accounted r = 2.
Proof. cbn zeta. repeat split; vm_compute; reflexivity. Qed.

(** The scenario of the specification: one record written, one warned
    with its trace cut to two lines, one failed. *)
Example scenario_end_state :
  let w' := drive scenario_calls (started scenario_gms true) in
  records_written (report (self w')) = 1
  /\ records_warned (report (self w')) = 1
  /\ records_failed (report (self w')) = 1
  /\ deref (store w') 1%positive !! "stackTrace" = Some (VStr ("a" +:+ NL +:+ "b")).
Proof. cbn zeta. repeat split; vm_compute; reflexivity. Qed.

(** * Routing by class *)

(** C8, as the code has it: which clause handles an exception of the
    [try] body depends on its class alone, whatever its class name or
    text.  An [OperationalError] object goes to the [OperationalError]
    clause, and [on_failure] then receives the error's [info]; any other
    instance of [Exception] goes to the [Exception] clause, is recorded as
    [{"e": e}] and reaches [on_failure] with an empty dictionary; an
    exception that is not an instance of [Exception] goes to neither
    clause and leaves the call.  So [on_failure] receives an [info]
    reference exactly for the [OperationalError] objects. *)
Theorem C8_type_level_routing
    (env : RecordEnvelope) (cb : WriteCallback) (w w1 : World) (e : exn) :
  try_body env cb w = (Raised e, w1) ->
  let run := write_record_async env cb w in
  let evs := calls_during w (snd run) in
  match e with
  | OperationalError msg l =>
      run = except_OperationalError env cb e w1
      /\ last evs = Some (OnFailure env e (VRef l))
  | OtherError cls text =>
      run = except_Exception env cb e w1
      /\ last evs = Some (OnFailure env e (VDictLit []))
      /\ last (failures (report (self (snd run)))) = Some (VDictLit [("e", VExn e)])
  | NonException cls text =>
      run = (Raised e, w1)
      /\ report (self (snd run)) = report (self w1)
      /\ forall e' md, last evs <> Some (OnFailure env e' md)
  end
  /\ ((exists l, last evs = Some (OnFailure env e (VRef l)))
      <-> exists msg l, e = OperationalError msg l)
  /\ (last evs = Some (OnFailure env e (VDictLit []))
      <-> exists cls text, e = OtherError cls text).
Proof.
  intros Hbody. cbn zeta.
  assert (Hmain :
    match e with
    | OperationalError msg l =>
        write_record_async env cb w = except_OperationalError env cb e w1
        /\ last (calls_during w (snd (write_record_async env cb w)))
           = Some (OnFailure env e (VRef l))
    | OtherError cls text =>
        write_record_async env cb w = except_Exception env cb e w1
        /\ last (calls_during w (snd (write_record_async env cb w)))
           = Some (OnFailure env e (VDictLit []))
        /\ last (failures (report (self (snd (write_record_async env cb w)))))
           = Some (VDictLit [("e", VExn e)])
    | NonException cls text =>
        write_record_async env cb w = (Raised e, w1)
        /\ report (self (snd (write_record_async env cb w))) = report (self w1)
        /\ forall e' md, last (calls_during w (snd (write_record_async env cb w)))
                         <> Some (OnFailure env e' md)
    end).
  { pose proof (write_record_async_raised env cb w w1 e Hbody) as Hrun.
    pose proof (raised_outcomes env cb w w1 e Hbody) as Hout. cbn zeta in Hout.
    destruct e as [msg l|cls text|cls text].
    - split; [exact Hrun|].
      destruct Hout as (md & Hlast & -> & _). exact Hlast.
    - split; [exact Hrun|].
      destruct Hout as (md & Hlast & -> & _).
      split; [exact Hlast|].
      rewrite Hrun. change (handle env cb (OtherError cls text) w1)
        with (except_Exception env cb (OtherError cls text) w1).
      rewrite except_Exception_eq, perform_self.
      cbn [log_call set_report self report failures]. apply last_snoc.
    - destruct Hout as (Hr & Hno).
      split; [exact Hr|]. split; [now rewrite Hr | exact Hno]. }
  split; [exact Hmain|].
  destruct e as [msg l|cls text|cls text].
  - destruct Hmain as (_ & Hlast). rewrite Hlast. split.
    + split; [eauto | intros _; eauto].
    + split; [intros [=] | intros (? & ? & [=])].
  - destruct Hmain as (_ & Hlast & _). rewrite Hlast. split.
    + split; [intros (l & [=]) | intros (? & ? & [=])].
    + split; [eauto | reflexivity].
  - destruct Hmain as (_ & _ & Hno). split.
    + split; [intros (l & H); now destruct (Hno _ _ H) | intros (? & ? & [=])].
    + split; [intros H; now destruct (Hno _ _ H) | intros (? & ? & [=])].
Qed.

Lemma C8_type_level_routing_witness :
  last (failures (report (self (snd (write_record_async usage_envelope quiet_callback
                                       (started lookalike_gms true))))))
  = Some (VDictLit [("e", VExn (OtherError "sqlalchemy.exc.OperationalError"
                                            "OperationalError: rejected"))])
  /\ last (calls_during (started lookalike_gms true)
             (snd (write_record_async usage_envelope quiet_callback
                     (started lookalike_gms true))))
     = Some (OnFailure usage_envelope
               (OtherError "sqlalchemy.exc.OperationalError" "OperationalError: rejected")
               (VDictLit [])).
Proof.
  pose proof (C8_type_level_routing usage_envelope quiet_callback
                (started lookalike_gms true) (started lookalike_gms true)
                (OtherError "sqlalchemy.exc.OperationalError" "OperationalError: rejected")
                eq_refl) as H.
  cbn zeta in H. destruct H as ((_ & Hcall & Hlast) & _).
  split; [exact Hlast | exact Hcall].
Defined.

(** C8 as stated fails: the emission raises [KeyboardInterrupt], which is
    neither an [OperationalError] nor routed to the handling of unexpected
    failures: nothing is recorded, no callback is invoked, and the
    exception leaves the call. *)
Lemma C8_counterexample :
  let w := started interrupted_gms true in
  let run := write_record_async event_envelope quiet_callback w in
  try_body event_envelope quiet_callback w = (Raised (NonException "KeyboardInterrupt" ""), w)
  /\ isinstance (NonException "KeyboardInterrupt" "") OperationalError_cls = false
  /\ fst run = Raised (NonException "KeyboardInterrupt" "")
  /\ failures (report (self (snd run))) = []
  /\ warnings (report (self (snd run))) = []
  /\ calls (snd run) = [].
Proof. cbn zeta. repeat split; vm_compute; reflexivity. Qed.

(** * A stack trace that cannot be trimmed *)

Lemma trim_stack_trace_eq (msg : string) (l : loc) (d : dict) (v : value) (w : World) :
  store w !! l = Some d ->
  d !! "stackTrace" = Some v ->
  trim_stack_trace (OperationalError msg l) w =
  match v with
  | VStr s =>
      (Returned tt,
       set_store (<[l := <["stackTrace" := VStr (join NL (slice_to 2 (split newline s)))]> d]>
                    (store w)) w)
  | _ => (Raised (OtherError "AttributeError" "split"), w)
  end.
Proof.
  intros Hl Hv. unfold trim_stack_trace, dict_getitem, dict_setitem. py_unfold.
  cbn [getattr_info]. py_unfold. rewrite (deref_lookup _ _ _ Hl), Hv.
  destruct v; cbn [method_split]; py_unfold; try reflexivity.
  now rewrite (deref_lookup _ _ _ Hl).
Qed.

(** C9: take an operational failure on the warning path whose [info] has
    a [stackTrace].  The trimming assignment fails exactly when the value
    is not a string ([split] is missing).  Whenever it fails, the inner
    [try] swallows the exception: the value stays as it was, the warning
    entry is recorded, [on_failure] is invoked, and the call returns
    normally exactly when [on_failure] does. *)
Theorem C9_trimming_failure_swallowed
    (env : RecordEnvelope) (cb : WriteCallback) (w : World) (msg : string) (d : dict)
    (v : value) :
  treat_errors_as_warnings (self w) = true ->
  emit_does (gms (emitter (self w))) (record env) = Throws (ThrowOperational msg d) ->
  d !! "stackTrace" = Some v ->
  let l := fresh (dom (store w)) in
  let e := OperationalError msg l in
  let r := write_record_async env cb w in
  let w' := snd r in
  let trimming_fails :=
    exists x w1, trim_stack_trace e (raised_in (ThrowOperational msg d) w) = (Raised x, w1) in
  (trimming_fails <-> forall s, v <> VStr s)
  /\ (trimming_fails ->
      deref (store w') l !! "stackTrace" = Some v
      /\ warnings (report (self w'))
         = warnings (report (self w)) ++ [VDictLit [("warning", VStr msg); ("info", VRef l)]]
      /\ failures (report (self w')) = failures (report (self w))
      /\ calls w' = calls w ++ [OnFailure env e (VRef l)]
      /\ (fst r = Returned tt <-> on_failure_does cb env e (VRef l) = Succeeds)).
Proof.
  intros Hflag Hemit Hv. cbn zeta.
  assert (Hl : store (raised_in (ThrowOperational msg d) w) !! fresh (dom (store w)) = Some d)
    by (rewrite raised_in_operational; apply lookup_insert_eq).
  rewrite (trim_stack_trace_eq msg _ d v _ Hl Hv).
  assert (Hfails : (exists x w1,
                      match v with
                      | VStr s =>
                          (Returned tt,
                           set_store
                             (<[fresh (dom (store w)) :=
                                  <["stackTrace" := VStr (join NL (slice_to 2 (split newline s)))]> d]>
                                (store (raised_in (ThrowOperational msg d) w)))
                             (raised_in (ThrowOperational msg d) w))
                      | _ => (Raised (OtherError "AttributeError" "split"),
                              raised_in (ThrowOperational msg d) w)
                      end = (Raised x, w1))
                   <-> forall s, v <> VStr s).
  { destruct v; split.
    all: try (intros _ s0; discriminate).
    all: try (intros _; eexists _, _; reflexivity).
    - intros (x & w1 & H). discriminate.
    - intros H. now destruct (H s). }
  split; [exact Hfails|].
  intros Hf. pose proof (proj1 Hfails Hf) as Hnot. clear Hf Hfails.
  rewrite (emit_operational env cb w msg d Hemit). cbn zeta. rewrite Hflag.
  rewrite perform_self, perform_calls, perform_returned.
  cbn [log_call set_report set_store self report warnings failures calls].
  split; [|by repeat split].
  erewrite deref_lookup.
  2: { apply perform_store. cbn [log_call set_report set_store store]. apply lookup_insert_eq. }
  rewrite redact_stackTrace, Hv. cbn [fmap option_fmap option_map].
  destruct v; try reflexivity. now destruct (Hnot s).
Qed.

Lemma C9_trimming_failure_swallowed_witness :
  deref (store (snd (write_record_async wrapper_envelope quiet_callback
                       (started malformed_gms true)))) 1%positive !! "stackTrace"
  = Some (VInt 7)
  /\ fst (write_record_async wrapper_envelope quiet_callback (started malformed_gms true))
     = Returned tt.
Proof.
  pose proof (C9_trimming_failure_swallowed wrapper_envelope quiet_callback
                (started malformed_gms true) "rejected" {[ "stackTrace" := VInt 7 ]} (VInt 7)
                eq_refl eq_refl eq_refl) as H.
  cbn zeta in H. destruct H as (Hiff & H).
  assert (Hnot : forall s, VInt 7 <> VStr s) by discriminate.
  destruct (H (proj2 Hiff Hnot)) as (Hkept & _ & _ & _ & Hret).
  split; [exact Hkept | apply Hret; reflexivity].
Defined.

(** * The latched flag *)

Lemma init_returned (config : DatahubRestSinkConfig) (remote : Gms) (w0 : World) :
  init config remote = (Returned tt, w0) ->
  treat_errors_as_warnings (self w0) = false
  /\ report (self w0) = empty_report
  /\ gms (emitter (self w0)) = remote
  /\ calls w0 = [].
Proof.
  unfold init. rewrite perform_eq. cbn [gms].
  destruct (test_connection_does remote); [|discriminate].
  intros [= <-]. repeat split.
Qed.

Lemma run_call_flag (c : SinkCall) (w : World) :
  no_metadata_start c ->
  treat_errors_as_warnings (self (snd (run_call c w))) = treat_errors_as_warnings (self w).
Proof.
  destruct c as [[id flag|id]|wu|env cb]; cbn [no_metadata_start]; try reflexivity.
  - intros [].
  - intros _. apply (write_record_async_frame env cb w).
Qed.

Lemma drive_flag (cs : list SinkCall) (w : World) :
  Forall no_metadata_start cs ->
  treat_errors_as_warnings (self (drive cs w)) = treat_errors_as_warnings (self w).
Proof.
  intros Hcs. revert w; induction Hcs as [|c cs Hc Hcs IH]; intros w; [reflexivity|].
  now rewrite drive_cons, IH, run_call_flag.
Qed.

(** The flag is latched from the last metadata work unit. *)
Lemma handle_work_unit_start_metadata (id : string) (flag : bool) (w : World) :
  treat_errors_as_warnings (self (snd (handle_work_unit_start (MetadataWorkUnit id flag) w)))
  = flag.
Proof. reflexivity. Qed.

(** C10: a sink that was just constructed has [treat_errors_as_warnings]
    at [False]; the flag stays there through any calls that do not start a
    metadata work unit, so an operational failure submitted then is
    recorded among the failures and not among the warnings; and
    [handle_work_unit_start] with a work unit that is not a
    [MetadataWorkUnit] changes nothing. *)
Theorem C10_flag_initially_false
    (config : DatahubRestSinkConfig) (remote : Gms) (w0 : World) (cs : list SinkCall)
    (env : RecordEnvelope) (cb : WriteCallback) (msg : string) (d : dict) :
  init config remote = (Returned tt, w0) ->
  Forall no_metadata_start cs ->
  emit_does remote (record env) = Throws (ThrowOperational msg d) ->
  let w := drive cs w0 in
  let w' := snd (write_record_async env cb w) in
  treat_errors_as_warnings (self w0) = false
  /\ treat_errors_as_warnings (self w) = false
  /\ failures (report (self w'))
     = failures (report (self w))
       ++ [VDictLit [("error", VStr msg); ("info", VRef (fresh (dom (store w))))]]
  /\ warnings (report (self w')) = warnings (report (self w))
  /\ store w' !! fresh (dom (store w)) = Some d
  /\ (forall id w1, handle_work_unit_start (UsageStatsWorkUnit id) w1 = (Returned tt, w1)).
Proof.
  intros Hinit Hcs Hemit. cbn zeta.
  destruct (init_returned config remote w0 Hinit) as (Hflag0 & _ & Hgms & _).
  assert (Hflag : treat_errors_as_warnings (self (drive cs w0)) = false)
    by (rewrite drive_flag; assumption).
  assert (Hemit' : emit_does (gms (emitter (self (drive cs w0)))) (record env)
                   = Throws (ThrowOperational msg d))
    by (rewrite drive_emitter, Hgms; exact Hemit).
  destruct (failure_branch env cb (drive cs w0) msg d Hflag Hemit')
    as (Hf & Hw & Hs).
  repeat split; assumption.
Qed.

Lemma C10_flag_initially_false_witness :
  treat_errors_as_warnings
    (self (drive early_calls (snd (init sample_config rejecting_gms)))) = false
  /\ warnings
       (report (self (snd (write_record_async wrapper_envelope quiet_callback
                             (drive early_calls (snd (init sample_config rejecting_gms)))))))
     = [].
Proof.
  assert (Hcs : Forall no_metadata_start early_calls) by (repeat constructor).
  pose proof (C10_flag_initially_false sample_config rejecting_gms
                (snd (init sample_config rejecting_gms)) early_calls
                wrapper_envelope quiet_callback
                "rejected" {[ "stackTrace" := VStr sample_trace ]}
                eq_refl Hcs eq_refl) as H.
  cbn zeta in H. destruct H as (_ & Hflag & _ & Hw & _).
  split; [exact Hflag | exact Hw].
Defined.

(** * More on a single call *)

(** The report and the store after the [except] clauses ran on the
    exception built from [t] in world [w]. *)
Lemma handled_world (env : RecordEnvelope) (cb : WriteCallback) (t : throw) (w : World) :
  let run := handle env cb (raised_exn t w) (raised_in t w) in
  let r := report (self w) in
  let l := fresh (dom (store w)) in
  report (self (snd run))
  = match t with
    | ThrowOperational msg d =>
        if treat_errors_as_warnings (self w)
        then mkReport (records_written r) (warnings r ++ [warning_entry msg l]) (failures r)
        else mkReport (records_written r) (warnings r) (failures r ++ [failure_entry msg l])
    | ThrowOther cls text =>
        mkReport (records_written r) (warnings r)
                 (failures r ++ [unexpected_entry (OtherError cls text)])
    | ThrowNonException _ _ => r
    end
  /\ (forall l0 d0, store w !! l0 = Some d0 -> store (snd run) !! l0 = Some d0)
  /\ match t with
     | ThrowOperational msg d =>
         store (snd run) !! l
         = Some (if treat_errors_as_warnings (self w) then redact (record env) d else d)
     | _ => True
     end.
Proof.
  cbn zeta. rewrite handle_raised. cbn zeta.
  destruct t as [msg d|cls text|cls text]; [| |by repeat split]; rewrite perform_self.
  - destruct (treat_errors_as_warnings (self w)) eqn:Hflag;
      cbn [log_call set_report set_store self report].
    all: split; [reflexivity|]; split.
    all: try (apply perform_store; cbn [log_call set_report set_store store];
              apply lookup_insert_eq).
    all: intros l0 d0 Hl0; apply perform_store;
      cbn [log_call set_report set_store store];
      rewrite lookup_insert_ne; [exact Hl0|];
      intros Heq; pose proof (alloc_fresh (store w)) as Hfresh;
      rewrite Heq in Hfresh; congruence.
  - cbn [log_call set_report set_store self report].
    split; [reflexivity|]. split; [|exact I].
    intros l0 d0 Hl0. apply perform_store. exact Hl0.
Qed.

(** The warning branch, as [failure_branch] is for the failure branch. *)
Lemma warning_branch
    (env : RecordEnvelope) (cb : WriteCallback) (w : World) (msg : string) (d : dict) :
  treat_errors_as_warnings (self w) = true ->
  emit_does (gms (emitter (self w))) (record env) = Throws (ThrowOperational msg d) ->
  let l := fresh (dom (store w)) in
  let w' := snd (write_record_async env cb w) in
  warnings (report (self w')) = warnings (report (self w)) ++ [warning_entry msg l]
  /\ failures (report (self w')) = failures (report (self w))
  /\ store w' !! l = Some (redact (record env) d).
Proof.
  intros Hflag Hemit. cbn zeta.
  rewrite (write_record_async_emit_raises env cb w _ Hemit).
  destruct (handled_world env cb (ThrowOperational msg d) w) as (Hr & _ & Hs).
  cbn zeta in Hr, Hs. rewrite Hflag in Hr, Hs. rewrite Hr, Hs. repeat split.
Qed.

(** With a transport and callbacks that build a new error object at each
    failure, a call leaves every dictionary that was in the store as it
    was. *)
Lemma write_record_async_store
    (env : RecordEnvelope) (cb : WriteCallback) (w : World) (l : loc) (d : dict) :
  store w !! l = Some d ->
  store (snd (write_record_async env cb w)) !! l = Some d.
Proof.
  intros Hl.
  destruct (emit_does (gms (emitter (self w))) (record env)) as [|t] eqn:Hemit.
  - rewrite (write_record_async_emit_succeeds env cb w Hemit). cbn zeta.
    destruct (on_success_does cb env (VDictLit [])) as [|t]; [exact Hl|].
    destruct (handled_world env cb t (written_world env w)) as (_ & Hs & _).
    apply Hs. exact Hl.
  - rewrite (write_record_async_emit_raises env cb w t Hemit).
    destruct (handled_world env cb t w) as (_ & Hs & _).
    apply Hs. exact Hl.
Qed.

(** What a call adds to the report: at most one written record, and at
    most one warning or failure entry. *)
Lemma write_record_async_report (env : RecordEnvelope) (cb : WriteCallback) (w : World) :
  let r := report (self w) in
  let r' := report (self (snd (write_record_async env cb w))) in
  exists (n : nat) (ws fs : list value),
    records_written r' = records_written r + n
    /\ warnings r' = warnings r ++ ws
    /\ failures r' = failures r ++ fs
    /\ n <= 1
    /\ List.length ws + List.length fs <= 1.
Proof.
  cbn zeta.
  destruct (emit_does (gms (emitter (self w))) (record env)) as [|t] eqn:Hemit.
  - rewrite (write_record_async_emit_succeeds env cb w Hemit). cbn zeta.
    destruct (on_success_does cb env (VDictLit [])) as [|t].
    + exists 1, [], []. cbn [snd written_world log_call set_report self report
                            records_written warnings failures].
      rewrite !app_nil_r. repeat split; try (cbn; lia).
    + destruct (handled_world env cb t (written_world env w)) as (Hr & _ & _).
      cbn zeta in Hr. rewrite Hr.
      destruct t as [msg d|cls text|cls text];
        [destruct (treat_errors_as_warnings (self (written_world env w)))| |];
        cbn [records_written warnings failures written_world log_call set_report self report].
      * exists 1, [warning_entry msg (fresh (dom (store w)))], [].
        rewrite app_nil_r. repeat split; try (cbn; lia).
      * exists 1, [], [failure_entry msg (fresh (dom (store w)))].
        rewrite app_nil_r. repeat split; try (cbn; lia).
      * exists 1, [], [unexpected_entry (OtherError cls text)].
        rewrite app_nil_r. repeat split; try (cbn; lia).
      * exists 1, [], []. rewrite !app_nil_r. repeat split; try (cbn; lia).
  - rewrite (write_record_async_emit_raises env cb w t Hemit).
    destruct (handled_world env cb t w) as (Hr & _ & _).
    cbn zeta in Hr. rewrite Hr.
    destruct t as [msg d|cls text|cls text];
      [destruct (treat_errors_as_warnings (self w))| |];
      cbn [records_written warnings failures].
    + exists 0, [warning_entry msg (fresh (dom (store w)))], [].
      rewrite app_nil_r, Nat.add_0_r. repeat split; try (cbn; lia).
    + exists 0, [], [failure_entry msg (fresh (dom (store w)))].
      rewrite app_nil_r, Nat.add_0_r. repeat split; try (cbn; lia).
    + exists 0, [], [unexpected_entry (OtherError cls text)].
      rewrite app_nil_r, Nat.add_0_r. repeat split; try (cbn; lia).
    + exists 0, [], []. rewrite !app_nil_r, Nat.add_0_r. repeat split; try (cbn; lia).
Qed.

(** X1: when the emission succeeds and [on_success] returns, the call
    returns normally, the written count grows by one, no warning or failure
    entry is added, the store and the flag are untouched, and the only
    callback invocation is [on_success(record_envelope, {})]. *)
Theorem X1_success_path (env : RecordEnvelope) (cb : WriteCallback) (w : World) :
  emit_does (gms (emitter (self w))) (record env) = Succeeds ->
  on_success_does cb env (VDictLit []) = Succeeds ->
  let r := write_record_async env cb w in
  fst r = Returned tt
  /\ records_written (report (self (snd r))) = S (records_written (report (self w)))
  /\ warnings (report (self (snd r))) = warnings (report (self w))
  /\ failures (report (self (snd r))) = failures (report (self w))
  /\ store (snd r) = store w
  /\ treat_errors_as_warnings (self (snd r)) = treat_errors_as_warnings (self w)
  /\ calls (snd r) = calls w ++ [OnSuccess env (VDictLit [])].
Proof.
  intros Hemit Hcb. cbn zeta.
  rewrite (write_record_async_emit_succeeds env cb w Hemit). cbn zeta. rewrite Hcb.
  repeat split.
Qed.

Lemma X1_success_path_witness :
  records_written
    (report (self (snd (write_record_async event_envelope quiet_callback
                          (started accepting_gms true))))) = 1
  /\ calls (snd (write_record_async event_envelope quiet_callback (started accepting_gms true)))
     = [OnSuccess event_envelope (VDictLit [])].
Proof.
  pose proof (X1_success_path event_envelope quiet_callback (started accepting_gms true)
                eq_refl eq_refl) as H.
  cbn zeta in H. destruct H as (_ & Hw & _ & _ & _ & _ & Hc). split; [exact Hw | exact Hc].
Defined.

(** X2: the constructor fails fast.  It returns exactly when
    [test_connection] returns, and otherwise raises what [test_connection]
    raised.  The sink it builds has an empty report, the flag at [False],
    and an emitter that got the server, the token and the extra headers of
    the configuration and [timeout_sec] as both its connect and its read
    timeout. *)
Theorem X2_constructor (config : DatahubRestSinkConfig) (remote : Gms) :
  let r := init config remote in
  (fst r = Returned tt <-> test_connection_does remote = Succeeds)
  /\ (forall cls text, test_connection_does remote = Throws (ThrowOther cls text) ->
      fst r = Raised (OtherError cls text))
  /\ (forall msg d, test_connection_does remote = Throws (ThrowOperational msg d) ->
      exists l, fst r = Raised (OperationalError msg l))
  /\ (forall cls text, test_connection_does remote = Throws (ThrowNonException cls text) ->
      fst r = Raised (NonException cls text))
  /\ report (self (snd r)) = empty_report
  /\ treat_errors_as_warnings (self (snd r)) = false
  /\ calls (snd r) = []
  /\ connect_timeout_sec (emitter (self (snd r))) = timeout_sec config
  /\ read_timeout_sec (emitter (self (snd r))) = timeout_sec config
  /\ gms_server (emitter (self (snd r))) = server config
  /\ emitter_token (emitter (self (snd r))) = token config
  /\ emitter_extra_headers (emitter (self (snd r))) = extra_headers config.
Proof.
  cbn zeta. unfold init. cbn [gms]. rewrite perform_eq.
  destruct (test_connection_does remote) as [|[msg d|cls text|cls text]]; cbn [fst snd].
  - repeat split; try discriminate.
  - repeat split; try discriminate.
    intros msg' d' [= <- <-]. eexists. reflexivity.
  - repeat split; try discriminate.
    intros cls' text' [= <- <-]. reflexivity.
  - repeat split; try discriminate.
    intros cls' text' [= <- <-]. reflexivity.
Qed.

(** * More on sequences of calls *)

(** X3: after any sequence of calls the flag is the one of the last
    metadata work unit started in the sequence, and the flag the sequence
    started with when no metadata work unit was started; writes and the
    other notifications never change it. *)
Theorem X3_flag_latched (cs : list SinkCall) (w : World) :
  treat_errors_as_warnings (self (drive cs w))
  = latched cs (treat_errors_as_warnings (self w)).
Proof.
  revert w. induction cs as [|c cs IH]; intros w; [reflexivity|].
  rewrite drive_cons, IH.
  destruct c as [[id b|id]|wu|env cb]; cbn [latched]; try reflexivity.
  f_equal. apply (write_record_async_frame env cb w).
Qed.

(** X4: the same rejected record submitted in two work units, the first
    without the policy flag and the second with it, gives one failure
    entry and one warning entry.  The two errors have distinct [info]
    dictionaries: the first keeps what the transport put in it, also after
    the second call, and only the second is redacted. *)
Theorem X4_policy_isolation
    (id1 id2 : string) (env : RecordEnvelope) (cb : WriteCallback) (w : World)
    (msg : string) (d : dict) :
  emit_does (gms (emitter (self w))) (record env) = Throws (ThrowOperational msg d) ->
  let w1 := drive (take 2 (two_work_units id1 id2 env cb)) w in
  let w2 := drive (two_work_units id1 id2 env cb) w in
  let l1 := fresh (dom (store w)) in
  let l2 := fresh (dom (store w1)) in
  l1 <> l2
  /\ failures (report (self w2))
     = failures (report (self w)) ++ [VDictLit [("error", VStr msg); ("info", VRef l1)]]
  /\ warnings (report (self w2))
     = warnings (report (self w)) ++ [VDictLit [("warning", VStr msg); ("info", VRef l2)]]
  /\ store w2 !! l1 = Some d
  /\ store w2 !! l2 = Some (redact (record env) d).
Proof.
  intros Hemit. cbn zeta.
  set (wa := set_treat_errors_as_warnings false w).
  set (w1 := snd (write_record_async env cb wa)).
  set (wb := set_treat_errors_as_warnings true w1).
  change (drive (take 2 (two_work_units id1 id2 env cb)) w) with w1.
  change (drive (two_work_units id1 id2 env cb) w) with (snd (write_record_async env cb wb)).
  destruct (failure_branch env cb wa msg d eq_refl Hemit) as (Hf1 & Hw1 & Hs1).
  cbn zeta in Hf1, Hw1, Hs1. fold w1 in Hf1, Hw1, Hs1.
  change (store wa) with (store w) in Hs1, Hf1.
  assert (Hemit2 : emit_does (gms (emitter (self wb))) (record env)
                   = Throws (ThrowOperational msg d)).
  { change (emitter (self wb)) with (emitter (self w1)). unfold w1.
    destruct (write_record_async_frame env cb wa) as (_ & -> & _). exact Hemit. }
  destruct (warning_branch env cb wb msg d eq_refl Hemit2) as (Hw2 & Hf2 & Hs2).
  cbn zeta in Hw2, Hf2, Hs2. change (store wb) with (store w1) in Hw2, Hs2.
  split.
  { intros Heq. pose proof (alloc_fresh (store w1)) as Hfresh.
    rewrite <- Heq, Hs1 in Hfresh. discriminate. }
  split; [rewrite Hf2; exact Hf1|].
  split; [rewrite Hw2; change (warnings (report (self wb))) with (warnings (report (self w1)));
          now rewrite Hw1|].
  split; [apply write_record_async_store; exact Hs1 | exact Hs2].
Qed.

Lemma X4_policy_isolation_witness :
  let w2 := drive (two_work_units "wu-1" "wu-2" wrapper_envelope quiet_callback)
                  (snd (init sample_config rejecting_gms)) in
  deref (store w2) 1%positive !! "stackTrace" = Some (VStr sample_trace)
  /\ deref (store w2) 2%positive !! "stackTrace" = Some (VStr ("a" +:+ NL +:+ "b")).
Proof.
  pose proof (X4_policy_isolation "wu-1" "wu-2" wrapper_envelope quiet_callback
                (snd (init sample_config rejecting_gms))
                "rejected" {[ "stackTrace" := VStr sample_trace ]} eq_refl) as H.
  cbn zeta in H. destruct H as (_ & _ & _ & H1 & H2). cbn zeta.
  split.
  - rewrite (deref_lookup _ 1%positive _ H1). reflexivity.
  - rewrite (deref_lookup _ 2%positive _ H2). reflexivity.
Defined.

Lemma on_successes_snoc (evs : list CallbackEvent) (ev : CallbackEvent) :
  on_successes (evs ++ [ev]) = on_successes evs + (if is_on_success ev then 1 else 0).
Proof.
  unfold on_successes. rewrite filter_app, length_app. f_equal.
  destruct ev; reflexivity.
Qed.

Lemma on_failures_snoc (evs : list CallbackEvent) (ev : CallbackEvent) :
  on_failures (evs ++ [ev]) = on_failures evs + (if is_on_success ev then 0 else 1).
Proof.
  unfold on_failures. rewrite filter_app, length_app. f_equal.
  destruct ev; reflexivity.
Qed.

(** One call: the written count moves with the invocations of
    [on_success], the warning and failure entries with those of
    [on_failure]. *)
Lemma write_record_async_paired (env : RecordEnvelope) (cb : WriteCallback) (w : World) :
  let r := report (self w) in
  let w' := snd (write_record_async env cb w) in
  let r' := report (self w') in
  records_written r' + on_successes (calls w)
  = records_written r + on_successes (calls w')
  /\ records_warned r' + records_failed r' + on_failures (calls w)
     = records_warned r + records_failed r + on_failures (calls w').
Proof.
  cbn zeta. unfold records_warned, records_failed.
  pose proof (write_record_async_calls env cb w) as Hcalls. cbn zeta in Hcalls.
  destruct (emit_does (gms (emitter (self w))) (record env)) as [|t] eqn:Hemit.
  - rewrite (write_record_async_emit_succeeds env cb w Hemit) in *. cbn zeta in *.
    destruct (on_success_does cb env (VDictLit [])) as [|t].
    + rewrite Hcalls, on_successes_snoc, on_failures_snoc.
      cbn [snd written_world log_call set_report self report records_written
           warnings failures is_on_success]. lia.
    + destruct (handled_world env cb t (written_world env w)) as (Hr & _ & _).
      cbn zeta in Hr. rewrite Hr.
      destruct t as [msg d|cls text|cls text];
        [destruct Hcalls as (md & ->);
         destruct (treat_errors_as_warnings (self (written_world env w)))
        |destruct Hcalls as (md & ->)
        |rewrite Hcalls];
        change (calls w ++ [OnSuccess env (VDictLit []); ?ev])
          with (calls w ++ [OnSuccess env (VDictLit [])] ++ [ev]);
        rewrite ?app_assoc, ?on_successes_snoc, ?on_failures_snoc;
        cbn [records_written warnings failures written_world log_call set_report
             self report is_on_success];
        rewrite ?length_app; cbn [List.length]; lia.
  - rewrite (write_record_async_emit_raises env cb w t Hemit) in *.
    destruct (handled_world env cb t w) as (Hr & _ & _).
    cbn zeta in Hr. rewrite Hr.
    destruct t as [msg d|cls text|cls text];
      [destruct Hcalls as (md & ->); destruct (treat_errors_as_warnings (self w))
      |destruct Hcalls as (md & ->)
      |rewrite Hcalls];
      rewrite ?on_successes_snoc, ?on_failures_snoc;
      cbn [records_written warnings failures is_on_success];
      rewrite ?length_app; cbn [List.length]; lia.
Qed.

(** X7: over any sequence of calls, whatever the transport and the
    callbacks do, the written count grows by exactly the number of
    [on_success] invocations made, and the number of warning and failure
    entries together by exactly the number of [on_failure] invocations
    made. *)
Theorem X7_entries_match_invocations (cs : list SinkCall) (w : World) :
  let r := report (self w) in
  let r' := report (self (drive cs w)) in
  records_written r' + on_successes (calls w)
  = records_written r + on_successes (calls (drive cs w))
  /\ records_warned r' + records_failed r' + on_failures (calls w)
     = records_warned r + records_failed r + on_failures (calls (drive cs w)).
Proof.
  cbn zeta. revert w. induction cs as [|c cs IH]; intros w; [split; reflexivity|].
  rewrite drive_cons. destruct (IH (snd (run_call c w))) as (H1 & H2).
  destruct c as [[id b|id]|wu|env cb];
    try (change (snd (run_call _ w)) with w in *; split; assumption);
    try (change (calls (snd (run_call _ w))) with (calls w) in *;
         change (report (self (snd (run_call _ w)))) with (report (self w)) in *;
         split; assumption).
  cbn [run_call] in *.
  destruct (write_record_async_paired env cb w) as (P1 & P2). split; lia.
Qed.

Lemma write_record_async_bounds (env : RecordEnvelope) (cb : WriteCallback) (w : World) :
  let r := report (self w) in
  let r' := report (self (snd (write_record_async env cb w))) in
  records_written r <= records_written r' <= S (records_written r)
  /\ records_warned r + records_failed r <= records_warned r' + records_failed r'
     <= S (records_warned r + records_failed r).
Proof.
  cbn zeta. unfold records_warned, records_failed.
  destruct (write_record_async_report env cb w)
    as (n & ws & fs & -> & -> & -> & Hn & Hwf).
  rewrite !length_app. lia.
Qed.

(** X8: over any sequence of calls, whatever the transport and the
    callbacks do, the written count never decreases and grows by at most
    the number of records submitted, so does the number of warning and
    failure entries together, and so written + warned + failed grows by at
    most twice the number of records submitted. *)
Theorem X8_report_bounds (cs : list SinkCall) (w : World) :
  let r := report (self w) in
  let r' := report (self (drive cs w)) in
  records_written r <= records_written r' <= records_written r + submitted cs
  /\ records_warned r + records_failed r <= records_warned r' + records_failed r'
     <= records_warned r + records_failed r + submitted cs
  /\ accounted r <= accounted r' <= accounted r + 2 * submitted cs.
Proof.
  cbn zeta. revert w. induction cs as [|c cs IH]; intros w.
  - change (drive [] w) with w. change (submitted []) with 0. unfold accounted. lia.
  - rewrite drive_cons, submitted_cons.
    destruct (IH (snd (run_call c w))) as (H1 & H2 & H3).
    destruct c as [[id b|id]|wu|env cb]; cbn [is_write];
      try (change (report (self (snd (run_call _ w)))) with (report (self w)) in *;
           unfold accounted in *; lia).
    cbn [run_call] in *.
    destruct (write_record_async_bounds env cb w) as (B1 & B2).
    unfold accounted in *. lia.
Qed.

(** * An exception raised by [on_success] *)

(** X9: [on_success] is called inside the [try], after the record was
    counted as written.  When it raises, the record stays counted as
    written.  An instance of [Exception] is then handled like one raised
    by the emission: an [OperationalError] becomes a warning entry (with
    its [info] redacted) or a failure entry according to the flag, any
    other instance becomes a failure entry [{"e": e}], and [on_failure] is
    invoked with that exception.  An exception that is not an instance of
    [Exception] leaves the call, with no entry besides the written record
    and no [on_failure]. *)
Theorem X9_on_success_raises
    (env : RecordEnvelope) (cb : WriteCallback) (w : World) (t : throw) :
  emit_does (gms (emitter (self w))) (record env) = Succeeds ->
  on_success_does cb env (VDictLit []) = Throws t ->
  let l := fresh (dom (store w)) in
  let w' := snd (write_record_async env cb w) in
  let r := report (self w) in
  let r' := report (self w') in
  records_written r' = S (records_written r)
  /\ match t with
     | ThrowOperational msg d =>
         if treat_errors_as_warnings (self w) then
           warnings r' = warnings r ++ [VDictLit [("warning", VStr msg); ("info", VRef l)]]
           /\ failures r' = failures r
           /\ store w' !! l = Some (redact (record env) d)
           /\ calls w' = calls w ++ [OnSuccess env (VDictLit []);
                                     OnFailure env (OperationalError msg l) (VRef l)]
         else
           warnings r' = warnings r
           /\ failures r' = failures r ++ [VDictLit [("error", VStr msg); ("info", VRef l)]]
           /\ store w' !! l = Some d
           /\ calls w' = calls w ++ [OnSuccess env (VDictLit []);
                                     OnFailure env (OperationalError msg l) (VRef l)]
     | ThrowOther cls text =>
         warnings r' = warnings r
         /\ failures r' = failures r ++ [VDictLit [("e", VExn (OtherError cls text))]]
         /\ calls w' = calls w ++ [OnSuccess env (VDictLit []);
                                   OnFailure env (OtherError cls text) (VDictLit [])]
     | ThrowNonException cls text =>
         warnings r' = warnings r
         /\ failures r' = failures r
         /\ store w' = store w
         /\ calls w' = calls w ++ [OnSuccess env (VDictLit [])]
         /\ fst (write_record_async env cb w) = Raised (NonException cls text)
     end.
Proof.
  intros Hemit Hcb. cbn zeta.
  rewrite (write_record_async_emit_succeeds env cb w Hemit). cbn zeta. rewrite Hcb.
  destruct (handled_world env cb t (written_world env w)) as (Hr & _ & Hs).
  cbn zeta in Hr, Hs. rewrite Hr.
  destruct (caught_cases t) as [[Hc _]|[_ (cls & text & ->)]].
  - destruct (handled_effect env cb t (written_world env w) Hc)
      as (md & w2 & Hrun & Hcalls & _ & _ & _ & _ & _ & Hmd).
    rewrite Hrun, perform_calls, Hcalls. rewrite Hrun in Hs.
    change (store (written_world env w)) with (store w) in *.
    change (treat_errors_as_warnings (self (written_world env w)))
      with (treat_errors_as_warnings (self w)) in *.
    cbn [written_world log_call calls]. rewrite <- app_assoc. cbn [app].
    destruct t as [msg d|cls text|cls text]; cbn [raised_exn] in *; subst md.
    + destruct (treat_errors_as_warnings (self w)); repeat split; exact Hs.
    + repeat split.
    + discriminate.
  - rewrite handle_raised. repeat split.
Qed.

Lemma X9_on_success_raises_witness :
  let w' := snd (write_record_async event_envelope operational_raising_callback
                   (started accepting_gms true)) in
  records_written (report (self w')) = 1
  /\ records_warned (report (self w')) = 1
  /\ records_failed (report (self w')) = 0.
Proof.
  pose proof (X9_on_success_raises event_envelope operational_raising_callback
                (started accepting_gms true)
                (ThrowOperational "late" {[ "stackTrace" := VStr sample_trace ]})
                eq_refl eq_refl) as H.
  cbn zeta in H. destruct H as (Hw & H). cbn zeta.
  change (treat_errors_as_warnings (self (started accepting_gms true))) with true in H.
  cbn iota in H. destruct H as (Hwarn & Hfail & _).
  unfold records_warned, records_failed. rewrite Hw, Hwarn, Hfail. repeat split.
Defined.

(** * The trimming expression *)

(** X10: the trimming expression ["\n".join(trace.split("\n")[0:2])]
    gives back a trace unchanged exactly when the trace has at most two
    lines (at most one newline, the empty trace included); its result
    always has at most two lines, so trimming a trimmed trace changes
    nothing; and a longer trace loses everything from its second newline
    on. *)
Theorem X10_trimming (s : string) :
  (trimmed s = s <-> count_char newline s <= 1)
  /\ trimmed (trimmed s) = trimmed s
  /\ List.length (split newline (trimmed s)) = min 2 (List.length (split newline s))
  /\ (2 <= count_char newline s ->
      exists rest, s = trimmed s +:+ NL +:+ rest /\ count_char newline (trimmed s) = 1).
Proof.
  split; [apply trimmed_fixed|]. split; [apply trimmed_idempotent|].
  split.
  { unfold trimmed. rewrite trimmed_lines, length_take. lia. }
  intros Hlong. destruct (trimmed_long s Hlong) as (Hcount & rest & Hrest).
  exists rest. split; assumption.
Qed.

(** * When the warning branch changes nothing *)

Lemma redact_fixed (r : MetadataRecord) (d : dict) :
  redact r d = d <->
  (forall s, d !! "stackTrace" = Some (VStr s) -> count_char newline s <= 1)
  /\ (forall urn payload, r = MetadataChangeProposalWrapper urn payload ->
      d !! "id" = Some (urn_value urn)).
Proof.
  split.
  - intros Heq. split.
    + intros s Hs.
      pose proof (redact_stackTrace r d) as Ht. rewrite Heq, Hs in Ht.
      cbn in Ht. injection Ht as Ht. apply trimmed_fixed. symmetry. exact Ht.
    + intros urn payload ->.
      pose proof (redact_id_wrapper urn payload d) as Hid. now rewrite Heq in Hid.
  - intros [Htrace Hid]. apply map_eq. intros k.
    destruct (decide (k = "stackTrace")) as [->|Hk1].
    + rewrite redact_stackTrace.
      destruct (d !! "stackTrace") as [[| s | | | |]|] eqn:Hs; try reflexivity.
      cbn. do 2 f_equal. apply trimmed_fixed. now apply Htrace.
    + destruct (decide (k = "id")) as [->|Hk2].
      * destruct r; try (apply redact_id_other; discriminate).
        rewrite redact_id_wrapper. symmetry. now apply (Hid entityUrn payload).
      * now apply redact_other_fields.
Qed.

(** X11: on the warning path the error's [info] dictionary comes out of
    the call exactly as the transport built it if and only if there was
    nothing to redact: its [stackTrace], when a string, has at most two
    lines, and, when the record is a [MetadataChangeProposalWrapper], it
    already holds the entity URN under [id]. *)
Theorem X11_info_unchanged_iff
    (env : RecordEnvelope) (cb : WriteCallback) (w : World) (msg : string) (d : dict) :
  treat_errors_as_warnings (self w) = true ->
  emit_does (gms (emitter (self w))) (record env) = Throws (ThrowOperational msg d) ->
  let l := fresh (dom (store w)) in
  let w' := snd (write_record_async env cb w) in
  store w' !! l = Some d <->
  (forall s, d !! "stackTrace" = Some (VStr s) -> count_char newline s <= 1)
  /\ (forall urn payload, record env = MetadataChangeProposalWrapper urn payload ->
      d !! "id" = Some (urn_value urn)).
Proof.
  intros Hflag Hemit. cbn zeta.
  destruct (warning_branch env cb w msg d Hflag Hemit) as (_ & _ & Hs).
  cbn zeta in Hs. rewrite Hs, <- redact_fixed.
  split; [intros [= H]; exact H | intros ->; reflexivity].
Qed.

Lemma X11_info_unchanged_iff_witness :
  store (snd (write_record_async usage_envelope quiet_callback
                (started (mkGms Succeeds
                            (fun _ => Throws (ThrowOperational "rejected"
                                                {[ "stackTrace" := VStr "one line" ]})))
                         true))) !! 1%positive
  = Some {[ "stackTrace" := VStr "one line" ]}.
Proof.
  apply (X11_info_unchanged_iff usage_envelope quiet_callback
           (started (mkGms Succeeds
                       (fun _ => Throws (ThrowOperational "rejected"
                                           {[ "stackTrace" := VStr "one line" ]})))
                    true)
           "rejected" {[ "stackTrace" := VStr "one line" ]} eq_refl eq_refl).
  split.
  - intros s Hs. vm_compute in Hs. injection Hs as <-. vm_compute. lia.
  - intros urn payload Hr. discriminate.
Defined.

(** * Calls that do nothing *)

Lemma run_call_ineffective (c : SinkCall) (w : World) :
  is_effective c = false -> run_call c w = (Returned tt, w).
Proof. destruct c as [[id b|id]|wu|env cb]; try discriminate; reflexivity. Qed.

(** X13: [handle_work_unit_end], and [handle_work_unit_start] with a work
    unit that is not a [MetadataWorkUnit], return normally and change
    nothing, wherever they occur: dropping them from a sequence of calls
    leaves the sink, the store and the callback log that the sequence
    produces the same. *)
Theorem X13_only_effective_calls_matter (cs : list SinkCall) (w : World) :
  drive (filter (fun c => is_effective c = true) cs) w = drive cs w.
Proof.
  revert w. induction cs as [|c cs IH]; intros w; [reflexivity|].
  destruct (is_effective c) eqn:E.
  - rewrite filter_cons_True by exact E. rewrite !drive_cons. apply IH.
  - rewrite filter_cons_False by congruence.
    rewrite drive_cons, (run_call_ineffective c w E). apply IH.
Qed.
